(** * ClauseWise legal document analyzer: the rule-based core of [app.py]

    A shallow embedding of [LegalDocumentAnalyzer] (clause classification,
    risk and importance scoring, timeline extraction, boilerplate detection,
    tone heuristics, document comparison) and of the statistics assembled by
    [analyze_document], followed by the properties of the specification.

    Conventions of the embedding:
    - a Python [str] is a [string] whose characters are the code points
      below 256; [lower], [strip] and [split] follow CPython on that range,
      and texts with other code points are outside the embedding;
    - Python integers are [Z] (values) or [nat] (indices and lengths);
    - [re.search] is only ever called with patterns free of regular
      expression operators, where it is substring search ([re_search]);
      [re.findall] with the date and duration expressions and the float
      operations of Python are external to the repository and are taken as
      the operations of two classes, [Regex] and [PyFloat]; [binary64] is
      the instance of [PyFloat] with the IEEE 754 doubles of CPython;
    - an operation that can raise returns a [result]. *)

From Stdlib Require Import ZArith List Ascii String Bool Lia QArith Qabs SpecFloat.
From stdpp Require Import gmap strings list.
Import ListNotations.

Local Open Scope string_scope.
Local Open Scope Z_scope.

(** ** Python string primitives *)

Module PyStr.

(** [str.isspace] on one code point below 256. *)
Definition is_space (c : ascii) : bool :=
  let n := nat_of_ascii c in
  (Nat.leb 9 n && Nat.leb n 13) || (Nat.leb 28 n && Nat.leb n 32)
  || Nat.eqb n 133 || Nat.eqb n 160.

(** [str.lower] on one code point below 256: A-Z and the upper-case
    letters of Latin-1 (all of U+00C0..U+00DE but the sign U+00D7). *)
Definition lower_char (c : ascii) : ascii :=
  let n := nat_of_ascii c in
  if (Nat.leb 65 n && Nat.leb n 90)
     || (Nat.leb 192 n && Nat.leb n 222 && negb (Nat.eqb n 215))
  then ascii_of_nat (n + 32) else c.

Fixpoint lower (s : string) : string :=
  match s with
  | EmptyString => EmptyString
  | String c r => String (lower_char c) (lower r)
  end.

Fixpoint lstrip (s : string) : string :=
  match s with
  | EmptyString => EmptyString
  | String c r => if is_space c then lstrip r else s
  end.

Fixpoint rstrip (s : string) : string :=
  match s with
  | EmptyString => EmptyString
  | String c r =>
      match rstrip r with
      | EmptyString => if is_space c then EmptyString else String c EmptyString
      | r' => String c r'
      end
  end.

Definition strip (s : string) : string := rstrip (lstrip s).

(** [s.split(sep)] for a one-character separator: one piece more than
    there are separators, empty pieces kept. *)
Fixpoint split (sep : ascii) (s : string) : list string :=
  match s with
  | EmptyString => [EmptyString]
  | String c r =>
      if Ascii.eqb c sep then EmptyString :: split sep r
      else match split sep r with
           | piece :: pieces => String c piece :: pieces
           | [] => [String c EmptyString]
           end
  end.

(** [needle in hay]. *)
Fixpoint str_in (needle hay : string) : bool :=
  match hay with
  | EmptyString => String.prefix needle EmptyString
  | String _ r => String.prefix needle hay || str_in needle r
  end.

(** Number of positions of [hay] at which [needle] starts. *)
Fixpoint occurrences (needle hay : string) : nat :=
  match hay with
  | EmptyString => 0%nat
  | String _ r =>
      ((if String.prefix needle hay then 1 else 0) + occurrences needle r)%nat
  end.

(** [hay.count(needle)]: occurrences that do not overlap, from the left.
    [skip] is the number of characters still covered by the last one. *)
Fixpoint count_from (skip : nat) (needle hay : string) : nat :=
  match hay with
  | EmptyString => 0%nat
  | String _ r =>
      match skip with
      | S k => count_from k needle r
      | O => if String.prefix needle hay
             then S (count_from (Nat.pred (String.length needle)) needle r)
             else count_from 0 needle r
      end
  end.

Definition count (needle hay : string) : nat := count_from 0 needle hay.

(** A pattern without regular-expression operators matches itself only. *)
Definition is_meta (c : ascii) : bool :=
  existsb (Ascii.eqb c)
    (list_ascii_of_string ".^$*+?{}[]\|()").

Definition is_literal (pattern : string) : bool :=
  forallb (fun c => negb (is_meta c)) (list_ascii_of_string pattern).

(** [re.search(pattern, s)] as a truth value, for a literal pattern. *)
Definition re_search (pattern s : string) : bool := str_in pattern s.

End PyStr.

Import PyStr.

(** ** The tables of [LegalDocumentAnalyzer.__init__] *)

Definition clause_patterns : list (string * list string) :=
  [ ("payment", ["payment"; "fee"; "cost"; "price"; "remuneration"; "compensation"]);
    ("termination", ["terminate"; "end"; "expire"; "cancel"; "dissolution"]);
    ("liability", ["liable"; "liability"; "responsible"; "damages"; "loss"]);
    ("confidentiality", ["confidential"; "non-disclosure"; "proprietary"; "trade secret"]);
    ("intellectual_property", ["copyright"; "patent"; "trademark"; "intellectual property"; "IP"]);
    ("warranty", ["warrant"; "guarantee"; "representation"; "condition"]);
    ("dispute_resolution", ["dispute"; "arbitration"; "mediation"; "court"; "jurisdiction"]);
    ("force_majeure", ["force majeure"; "act of god"; "unforeseeable"; "beyond control"]);
    ("governing_law", ["governing law"; "applicable law"; "jurisdiction"; "venue"]);
    ("amendment", ["amend"; "modify"; "change"; "alter"; "update"]) ].

Definition risk_keywords_high : list string :=
  ["penalty"; "breach"; "default"; "liquidated damages"; "forfeit"; "void"; "null"].
Definition risk_keywords_medium : list string :=
  ["may"; "discretion"; "reasonable"; "commercially reasonable"; "best efforts"].
Definition risk_keywords_low : list string :=
  ["shall"; "will"; "must"; "required"; "mandatory"].

Definition boilerplate_patterns : list string :=
  [ "this agreement shall be governed by";
    "entire agreement";
    "severability";
    "no waiver";
    "counterparts";
    "headings are for convenience only" ].

(** ** Risk and importance *)

(** [sum(1 for keyword in keywords if keyword in text)]. *)
Definition count_present (keywords : list string) (text : string) : Z :=
  fold_left (fun acc keyword => if str_in keyword text then acc + 1 else acc)
            keywords 0.

(** The keywords of a list that occur in a text, each listed once. *)
Definition keywords_present (keywords : list string) (text : string) : list string :=
  List.filter (fun keyword => str_in keyword text) keywords.

Definition _assess_risk_level (text : string) : string :=
  let text_lower := lower text in
  let high_risk_count := count_present risk_keywords_high text_lower in
  let medium_risk_count := count_present risk_keywords_medium text_lower in
  let low_risk_count := count_present risk_keywords_low text_lower in
  if 0 <? high_risk_count then "high"
  else if low_risk_count <? medium_risk_count then "medium"
  else "low".

Definition important_types : list string :=
  ["liability"; "payment"; "termination"; "intellectual_property"].

Definition legal_keywords : list string :=
  ["shall"; "liable"; "damages"; "breach"; "default"].

Definition _calculate_importance_score (text : string) (clause_types : list string) : Z :=
  let base_score := 5 in
  let base_score :=
    fold_left (fun score clause_type =>
                 if existsb (String.eqb clause_type) important_types
                 then score + 2 else score)
              clause_types base_score in
  let base_score :=
    if Nat.ltb 200 (String.length text) then base_score + 1 else base_score in
  let keyword_count :=
    fold_left (fun acc keyword =>
                 if str_in (lower keyword) (lower text) then acc + 1 else acc)
              legal_keywords 0 in
  let base_score := base_score + Z.min keyword_count 3 in
  Z.min base_score 10.

(** ** Clause classification *)

Record ClauseRecord := {
  clause_id : nat;
  clause_text : string;
  clause_types : list string;
  risk_level : string;
  importance_score : Z;
  position : nat
}.

(** The inner loop over one category's patterns, left at the first match. *)
Fixpoint any_pattern (patterns : list string) (sentence_lower : string) : bool :=
  match patterns with
  | [] => false
  | pattern :: rest =>
      if re_search pattern sentence_lower then true
      else any_pattern rest sentence_lower
  end.

(** The loop over [clause_patterns.items()], in insertion order. *)
Fixpoint match_types (table : list (string * list string))
         (sentence_lower : string) : list string :=
  match table with
  | [] => []
  | (clause_type, patterns) :: rest =>
      if any_pattern patterns sentence_lower
      then clause_type :: match_types rest sentence_lower
      else match_types rest sentence_lower
  end.

(** The dictionary appended for sentence [i] once its types are known. *)
Definition clause_record (i : nat) (sentence : string) (types : list string)
  : ClauseRecord :=
  {| clause_id := i;
     clause_text := strip sentence;
     clause_types := types;
     risk_level := _assess_risk_level sentence;
     importance_score := _calculate_importance_score sentence types;
     position := i |}.

(** The loop over [enumerate(sentences)], from index [i]. *)
Fixpoint classify_from (i : nat) (sentences : list string) : list ClauseRecord :=
  match sentences with
  | [] => []
  | sentence :: rest =>
      if Nat.ltb (String.length (strip sentence)) 20
      then classify_from (S i) rest
      else
        let types := match_types clause_patterns (lower sentence) in
        match types with
        | [] => classify_from (S i) rest
        | _ :: _ => clause_record i sentence types :: classify_from (S i) rest
        end
  end.

Definition classify_clauses (text : string) : list ClauseRecord :=
  classify_from 0 (split "." text).

Definition scenario_text : string :=
  "This Agreement shall terminate after 30 days. The Client shall pay a penalty fee for any breach.".

(** ** External operations

    [re.findall(pattern, s, re.IGNORECASE)] for the date and duration
    expressions: the list of matches, each a string or a tuple of groups. *)
Class Regex := {
  re_match : Type;
  re_findall : string -> string -> list re_match
}.

(** Python floats: [a / b] on integers (for [b] not zero), [x * n],
    [n < x] and [round(x, ndigits)]. *)
Class PyFloat := {
  float : Type;
  float_div : Z -> Z -> float;
  float_mul_int : float -> Z -> float;
  int_lt_float : Z -> float -> bool;
  float_round : float -> Z -> float
}.

Inductive exn := ZeroDivisionError.

Inductive result (A : Type) :=
| Ok (a : A)
| Raise (e : exn).
Arguments Ok {A} a.
Arguments Raise {A} e.

#[global] Instance result_bind : MBind result :=
  fun A B k r =>
    match r with
    | Ok a => k a
    | Raise e => Raise e
    end.

Section Numbers.
Context {F : PyFloat}.

(** A Python number: an [int] or a [float]. *)
Inductive number :=
| Int (z : Z)
| Float (x : float).

(** [a / b] on integers. *)
Definition py_truediv (a b : Z) : result float :=
  if b =? 0 then Raise ZeroDivisionError else Ok (float_div a b).

(** [min(x, n)]: the first argument unless the second is smaller. *)
Definition py_min_int (x : float) (n : Z) : number :=
  if int_lt_float n x then Int n else Float x.

(** [round(v, ndigits)] for [ndigits >= 0]: an [int] is returned as is. *)
Definition py_round (v : number) (ndigits : Z) : number :=
  match v with
  | Int z => Int z
  | Float x => Float (float_round x ndigits)
  end.
End Numbers.

(** ** Timeline extraction *)

Definition date_patterns : list string :=
  [ "\b\d{1,2}/\d{1,2}/\d{4}\b";
    "\b\d{1,2}-\d{1,2}-\d{4}\b";
    "\b(January|February|March|April|May|June|July|August|September|October|November|December)\s+\d{1,2},?\s+\d{4}\b";
    "\b\d{1,2}\s+(January|February|March|April|May|June|July|August|September|October|November|December)\s+\d{4}\b" ].

Definition duration_patterns : list string :=
  [ "\b\d+\s+(days?|weeks?|months?|years?)\b";
    "\b(within|after|before)\s+\d+\s+(days?|weeks?|months?|years?)\b";
    "\b\d+\s+(day|week|month|year)\s+(period|term)\b" ].

Definition deadline_keywords : list string :=
  ["deadline"; "due date"; "expiry"; "termination date"; "completion date"].

Section Timeline.
Context {R : Regex}.

Record TimelineEntry := {
  sentence_id : nat;
  timeline_text : string;
  dates : list re_match;
  durations : list re_match;
  deadlines : list string
}.

(** [for pattern in patterns: acc.extend(re.findall(pattern, sentence))]. *)
Definition find_all (patterns : list string) (sentence : string) : list re_match :=
  fold_left (fun acc pattern => (acc ++ re_findall pattern sentence)%list)
            patterns [].

Definition find_deadlines (sentence : string) : list string :=
  fold_left (fun acc keyword =>
               if str_in (lower keyword) (lower sentence)
               then (acc ++ [keyword])%list else acc)
            deadline_keywords [].

Definition sentence_timeline (i : nat) (sentence : string) : TimelineEntry :=
  {| sentence_id := i;
     timeline_text := strip sentence;
     dates := find_all date_patterns sentence;
     durations := find_all duration_patterns sentence;
     deadlines := find_deadlines sentence |}.

(** Truth value of [dates or durations or deadlines]. *)
Definition has_timeline (e : TimelineEntry) : bool :=
  negb (Nat.eqb (List.length (dates e)) 0)
  || negb (Nat.eqb (List.length (durations e)) 0)
  || negb (Nat.eqb (List.length (deadlines e)) 0).

Fixpoint timeline_from (i : nat) (sentences : list string) : list TimelineEntry :=
  match sentences with
  | [] => []
  | sentence :: rest =>
      let entry := sentence_timeline i sentence in
      if has_timeline entry then entry :: timeline_from (S i) rest
      else timeline_from (S i) rest
  end.

Definition extract_timeline_info (text : string) : list TimelineEntry :=
  timeline_from 0 (split "." text).
End Timeline.

(** ** Boilerplate detection *)

Record BoilerplateMatch := {
  boilerplate_id : nat;
  boilerplate_text : string;
  pattern_matched : string;
  confidence : Q
}.

(** The loop over the patterns, left at the first one that matches. *)
Fixpoint first_pattern (patterns : list string) (sentence_lower : string)
  : option string :=
  match patterns with
  | [] => None
  | pattern :: rest =>
      if re_search pattern sentence_lower then Some pattern
      else first_pattern rest sentence_lower
  end.

(** The dictionary appended for sentence [i] when [pattern] matched. *)
Definition boilerplate_match (i : nat) (sentence pattern : string)
  : BoilerplateMatch :=
  {| boilerplate_id := i;
     boilerplate_text := strip sentence;
     pattern_matched := pattern;
     confidence := 8 # 10 |}.

Fixpoint boilerplate_from (i : nat) (sentences : list string)
  : list BoilerplateMatch :=
  match sentences with
  | [] => []
  | sentence :: rest =>
      match first_pattern boilerplate_patterns (lower sentence) with
      | Some pattern =>
          boilerplate_match i sentence pattern :: boilerplate_from (S i) rest
      | None => boilerplate_from (S i) rest
      end
  end.

Definition detect_boilerplate (text : string) : list BoilerplateMatch :=
  boilerplate_from 0 (split "." text).

(** ** Tone *)

Definition formal_indicators : list string :=
  ["shall"; "hereby"; "whereas"; "pursuant"; "notwithstanding"].
Definition assertive_indicators : list string :=
  ["must"; "required"; "mandatory"; "obligation"; "duty"].
Definition risky_indicators : list string :=
  ["penalty"; "breach"; "default"; "terminate"; "void"].

Section Tone.
Context {F : PyFloat}.

Record ToneProfile := {
  overall_sentiment : string;
  formality_score : number;
  assertiveness_score : number;
  risk_tone : string
}.

(** The three totals after the loop over the sampled sentences. *)
Definition tone_totals (sentences : list string) : Z * Z * Z :=
  fold_left
    (fun '(formality, assertiveness, risk) sentence =>
       let sentence_lower := lower sentence in
       (formality + count_present formal_indicators sentence_lower,
        assertiveness + count_present assertive_indicators sentence_lower,
        risk + count_present risky_indicators sentence_lower))
    sentences (0, 0, 0).

(** [min((total / max_score) * 10, 10)]. *)
Definition normalize (total max_score : Z) : result number :=
  q ← py_truediv total max_score;
  Ok (py_min_int (float_mul_int q 10) 10).

(** [sentiment_analyzer] is the truth value of the global of that name. *)
Definition analyze_tone (sentiment_analyzer : bool) (text : string)
  : result ToneProfile :=
  if negb sentiment_analyzer then
    Ok {| overall_sentiment := "neutral";
          formality_score := Int 7;
          assertiveness_score := Int 5;
          risk_tone := "moderate" |}
  else
    let sentences := firstn 10 (split "." text) in
    let '(formality, assertiveness, risk_tone_score) := tone_totals sentences in
    let max_score := Z.of_nat (List.length sentences) in
    formality_score ← normalize formality max_score;
    assertiveness_score ← normalize assertiveness max_score;
    let risk_tone :=
      if risk_tone_score <? 2 then "low"
      else if risk_tone_score <? 5 then "moderate" else "high" in
    Ok {| overall_sentiment := "formal";
          formality_score := py_round formality_score 1;
          assertiveness_score := py_round assertiveness_score 1;
          risk_tone := risk_tone |}.
End Tone.

(** ** Rewriting suggestions *)

Record RewriteSuggestion := {
  suggestion_clause_id : nat;
  original_text : string;
  issues : list string;
  suggestions : list string
}.

Definition dquote : string := String (ascii_of_nat 34) EmptyString.
Definition quoted (s : string) : string := dquote ++ s ++ dquote.

(** One [if] of the body: both lists grow together. *)
Definition add_issue (triggered : bool) (issue suggestion : string)
           (s : RewriteSuggestion) : RewriteSuggestion :=
  if triggered then
    {| suggestion_clause_id := suggestion_clause_id s;
       original_text := original_text s;
       issues := (issues s ++ [issue])%list;
       suggestions := (suggestions s ++ [suggestion])%list |}
  else s.

Definition suggestion_for (clause : ClauseRecord) : RewriteSuggestion :=
  let text_lower := lower (clause_text clause) in
  let s := {| suggestion_clause_id := clause_id clause;
              original_text := clause_text clause;
              issues := [];
              suggestions := [] |} in
  let s := add_issue (str_in "may" text_lower)
             ("Ambiguous language - " ++ quoted "may" ++ " creates uncertainty")
             ("Replace " ++ quoted "may" ++ " with " ++ quoted "shall" ++ " or "
                ++ quoted "will" ++ " for clarity") s in
  let s := add_issue (str_in "reasonable" text_lower
                      && negb (str_in "commercially reasonable" text_lower))
             ("Vague standard - " ++ quoted "reasonable" ++ " is subjective")
             ("Define specific criteria for what constitutes " ++ quoted "reasonable") s in
  let s := add_issue (Nat.ltb 300 (String.length (clause_text clause)))
             "Overly complex sentence structure"
             "Break into shorter, clearer sentences" s in
  let s := add_issue (existsb (fun word => str_in word text_lower)
                              ["penalty"; "forfeit"; "liquidated damages"])
             "High financial risk language"
             "Consider adding caps or limitations on penalties" s in
  s.

Fixpoint generate_rewriting_suggestions (clauses : list ClauseRecord)
  : list RewriteSuggestion :=
  match clauses with
  | [] => []
  | clause :: rest =>
      if String.eqb (risk_level clause) "high" || (8 <=? importance_score clause)
      then
        let suggestion := suggestion_for clause in
        match issues suggestion with
        | [] => generate_rewriting_suggestions rest
        | _ :: _ => suggestion :: generate_rewriting_suggestions rest
        end
      else generate_rewriting_suggestions rest
  end.

(** ** Document comparison *)

Record Comparison := {
  doc1_unique_clauses : list ClauseRecord;
  doc2_unique_clauses : list ClauseRecord;
  common_clauses : list ClauseRecord;
  differences : list string;
  doc1_unique_types : list string;
  doc2_unique_types : list string;
  common_types : list string
}.

(** The nested loops [for clause in clauses: for clause_type in
    clause['types']: types.add(clause_type)] on an empty set. *)
Definition collect_types (clauses : list ClauseRecord) : gset string :=
  fold_left
    (fun types clause =>
       fold_left (fun types clause_type => types ∪ {[clause_type]})
                 (clause_types clause) types)
    clauses ∅.

(** [list(s)] enumerates a set in an order the language leaves open; it is
    [elements] here, and the results are compared as sets. *)
Definition compare_documents (doc1_text doc2_text : string) : Comparison :=
  let doc1_clauses := classify_clauses doc1_text in
  let doc2_clauses := classify_clauses doc2_text in
  let doc1_types := collect_types doc1_clauses in
  let doc2_types := collect_types doc2_clauses in
  {| doc1_unique_clauses := [];
     doc2_unique_clauses := [];
     common_clauses := [];
     differences := [];
     doc1_unique_types := elements (doc1_types ∖ doc2_types);
     doc2_unique_types := elements (doc2_types ∖ doc1_types);
     common_types := elements (doc1_types ∩ doc2_types) |}.

(** ** The statistics of [analyze_document] *)

(** [Counter(keys)]: every key counted as often as it occurs. *)
Definition counter_incr (counts : gmap string Z) (key : string) : gmap string Z :=
  <[key := default 0 (counts !! key) + 1]> counts.

Definition sum_importance (clauses : list ClauseRecord) : Z :=
  fold_left (fun acc c => acc + importance_score c) clauses 0.

Section Analysis.
Context {R : Regex} {F : PyFloat}.

Record Statistics := {
  total_clauses : nat;
  risk_distribution : gmap string Z;
  clause_type_distribution : gmap string Z;
  avg_importance_score : number
}.

Record AnalysisResult := {
  clauses : list ClauseRecord;
  timeline_info : list TimelineEntry;
  boilerplate_clauses : list BoilerplateMatch;
  tone_analysis : ToneProfile;
  rewriting_suggestions : list RewriteSuggestion;
  statistics : Statistics
}.

(** [round(sum(...) / len(clauses), 2) if clauses else 0]. *)
Definition average_importance (clauses : list ClauseRecord) : result number :=
  match clauses with
  | _ :: _ =>
      mean ← py_truediv (sum_importance clauses)
                        (Z.of_nat (List.length clauses));
      Ok (py_round (Float mean) 2)
  | [] => Ok (Int 0)
  end.

(** The body of the [try] block. *)
Definition analyze (sentiment_analyzer : bool) (text : string)
  : result AnalysisResult :=
  let clauses := classify_clauses text in
  let timeline_info := extract_timeline_info text in
  let boilerplate_clauses := detect_boilerplate text in
  tone_analysis ← analyze_tone sentiment_analyzer text;
  let rewriting_suggestions := generate_rewriting_suggestions clauses in
  let risk_distribution :=
    fold_left (fun counts clause => counter_incr counts (risk_level clause))
              clauses ∅ in
  let clause_type_distribution :=
    fold_left (fun counts clause =>
                 fold_left counter_incr (clause_types clause) counts)
              clauses ∅ in
  avg ← average_importance clauses;
  Ok {| clauses := clauses;
        timeline_info := timeline_info;
        boilerplate_clauses := boilerplate_clauses;
        tone_analysis := tone_analysis;
        rewriting_suggestions := rewriting_suggestions;
        statistics :=
          {| total_clauses := List.length clauses;
             risk_distribution := risk_distribution;
             clause_type_distribution := clause_type_distribution;
             avg_importance_score := avg |} |}.

(** What the route answers: the body and the status code. *)
Inductive response :=
| Response200 (body : AnalysisResult)
| Response400 (error : string)
| Response500 (error : string).

Definition str_exn (e : exn) : string :=
  match e with
  | ZeroDivisionError => "division by zero"
  end.

Definition analyze_document (sentiment_analyzer : bool) (text : string)
  : response :=
  if String.eqb text "" then Response400 "No text provided"
  else
    match analyze sentiment_analyzer text with
    | Ok analysis_result => Response200 analysis_result
    | Raise e => Response500 ("Analysis failed: " ++ str_exn e)
    end.
End Analysis.

(** ** The risk rule as the specification words it

    The counts are numbers of occurrences: a keyword found [n] times in the
    lower-cased text adds [n] to the count of its tier. *)

Definition tier_occurrences (keywords : list string) (text_lower : string) : Z :=
  fold_left (fun acc keyword => acc + Z.of_nat (occurrences keyword text_lower))
            keywords 0.

Definition risk_by_occurrences (text : string) : string :=
  let text_lower := lower text in
  if 0 <? tier_occurrences risk_keywords_high text_lower then "high"
  else if tier_occurrences risk_keywords_low text_lower
          <? tier_occurrences risk_keywords_medium text_lower then "medium"
  else "low".

(** The same with [str.count], whose occurrences do not overlap. *)
Definition tier_count (keywords : list string) (text_lower : string) : Z :=
  fold_left (fun acc keyword => acc + Z.of_nat (count keyword text_lower))
            keywords 0.

Definition risk_by_count (text : string) : string :=
  let text_lower := lower text in
  if 0 <? tier_count risk_keywords_high text_lower then "high"
  else if tier_count risk_keywords_low text_lower
          <? tier_count risk_keywords_medium text_lower then "medium"
  else "low".

Definition may_text : string :=
  "The Client may pay the fee or may cancel but shall give notice".

(** The score in closed form: base 5, 2 per important tag, 1 for a long
    text, at most 3 for the legal keywords present, capped at 10. *)
Definition importance_formula (text : string) (tags : list string) : Z :=
  Z.min
    (5
     + 2 * Z.of_nat (List.length
                       (List.filter (fun tag => existsb (String.eqb tag) important_types)
                                    tags))
     + (if Nat.ltb 200 (String.length text) then 1 else 0)
     + Z.min (Z.of_nat (List.length
                          (List.filter (fun keyword => str_in (lower keyword) (lower text))
                                       legal_keywords)))
             3)
    10.

(** An engine that never finds anything: the least instance of [Regex]. *)
Definition no_match : Regex :=
  {| re_match := string; re_findall := fun _ _ => [] |}.

Definition short_text : string := "due date: no waiver".

(** ** [upload_file]: the preview of the extracted text

    [text[:500] + '...' if len(text) > 500 else text]. *)
Definition text_preview (text : string) : string :=
  if Nat.ltb 500 (String.length text)
  then String.substring 0 500 text ++ "..."
  else text.

(** ** The keyword categories of [watson_nlu.py] *)

Definition categories : list (string * list string) :=
  [ ("risk", ["risk"; "liability"; "damages"; "penalty"; "breach"; "default"]);
    ("obligations", ["shall"; "must"; "required"; "obligation"; "duty"; "responsibility"]);
    ("financial", ["payment"; "fee"; "cost"; "price"; "compensation"; "remuneration"]);
    ("temporal", ["term"; "duration"; "deadline"; "expiry"; "termination"]);
    ("legal_process", ["court"; "arbitration"; "mediation"; "jurisdiction"; "governing law"]) ].

(** The loop over [categories.items()], left at the first category one of
    whose terms occurs. *)
Fixpoint categorize_in (table : list (string * list string))
         (keyword_lower : string) : string :=
  match table with
  | [] => "general"
  | (category, terms) :: rest =>
      if existsb (fun term => str_in term keyword_lower) terms then category
      else categorize_in rest keyword_lower
  end.

Definition _categorize_legal_keyword (keyword : string) : string :=
  categorize_in categories (lower keyword).

(** ** Devices of the proofs *)

(** The shape shared by the three loops over [enumerate(sentences)]: each
    sentence appends at most one element, built from its index. *)
Fixpoint enumerate_omap {B : Type} (f : nat -> string -> option B)
         (i : nat) (sentences : list string) : list B :=
  match sentences with
  | [] => []
  | sentence :: rest =>
      match f i sentence with
      | Some b => b :: enumerate_omap f (S i) rest
      | None => enumerate_omap f (S i) rest
      end
  end.

(** One turn of the loop of [classify_clauses]. *)
Definition classify_one (i : nat) (sentence : string) : option ClauseRecord :=
  if Nat.ltb (String.length (strip sentence)) 20 then None
  else match match_types clause_patterns (lower sentence) with
       | [] => None
       | types => Some (clause_record i sentence types)
       end.

(** A record with its text in lower case. *)
Definition lower_record (r : ClauseRecord) : ClauseRecord :=
  {| clause_id := clause_id r;
     clause_text := lower (clause_text r);
     clause_types := clause_types r;
     risk_level := risk_level r;
     importance_score := importance_score r;
     position := position r |}.

(** The number of records with a given risk level, with a given tag. *)
Definition count_risk (level : string) (cs : list ClauseRecord) : nat :=
  List.length (List.filter (fun c => String.eqb (risk_level c) level) cs).

Definition count_tagged (tag : string) (cs : list ClauseRecord) : nat :=
  List.length (List.filter (fun c => existsb (String.eqb tag) (clause_types c)) cs).

(** The number of periods of a text. *)
Fixpoint periods (s : string) : nat :=
  match s with
  | EmptyString => 0%nat
  | String c r => ((if Ascii.eqb c "." then 1 else 0) + periods r)%nat
  end.

Definition amend_text : string :=
  "The parties may amend this Agreement in writing".

(** ** Python floats: IEEE 754 binary64

    The values are those of the Standard Library's [spec_float]. The
    operations round the exact result to the nearest double, ties to the
    even mantissa, computed on integers: [nearest s p q] is the double
    nearest to the rational [p / q] (for [0 <= p], [0 < q]) with sign [s]. *)
Module Binary64.

(** [p / (q * 2 ^ e)] as a fraction of integers. *)
Definition scaled (p q e : Z) : Z * Z :=
  if 0 <=? e then (p, q * 2 ^ e) else (p * 2 ^ (- e), q).

(** The exponent [e] with [2 ^ 52 <= p / (q * 2 ^ e) < 2 ^ 53]. *)
Definition binade (p q : Z) : Z :=
  let e := Z.log2 p - Z.log2 q - 53 in
  let '(num, den) := scaled p q e in
  if num <? 2 ^ 53 * den then e else e + 1.

(** Subnormal numbers share the least exponent. *)
Definition exponent (p q : Z) : Z := Z.max (binade p q) (-1074).

(** The integer nearest to [num / den], the even one of two. *)
Definition round_half_even (num den : Z) : Z :=
  let m := num / den in
  let r := num - m * den in
  if 2 * r <? den then m
  else if den <? 2 * r then m + 1
  else if Z.even m then m else m + 1.

Definition nearest (s : bool) (p q : Z) : spec_float :=
  if p =? 0 then S754_zero s
  else
    let e := exponent p q in
    let '(num, den) := scaled p q e in
    let m := round_half_even num den in
    let '(m, e) := if m =? 2 ^ 53 then (2 ^ 52, e + 1) else (m, e) in
    if m =? 0 then S754_zero s
    else if 971 <? e then S754_infinity s
    else S754_finite s (Z.to_pos m) e.

Definition sign (x : spec_float) : bool :=
  match x with
  | S754_zero s | S754_infinity s | S754_finite s _ _ => s
  | S754_nan => false
  end.

(** The absolute value of a finite double as a fraction of integers. *)
Definition magnitude (x : spec_float) : Z * Z :=
  match x with
  | S754_finite _ m e => scaled (Z.pos m) 1 (- e)
  | _ => (0, 1)
  end.

(** The value of a finite double as a rational. *)
Definition value (x : spec_float) : Q :=
  match x with
  | S754_finite s m e =>
      let '(num, den) := magnitude x in
      let v := num # Z.to_pos den in
      if s then (- v)%Q else v
  | _ => 0%Q
  end.

(** [a / b] on integers, for [b] not zero: the quotient correctly rounded.
    (Python raises OverflowError where this gives an infinity; the
    quotients of this program are at most 10.) *)
Definition div (a b : Z) : spec_float :=
  nearest (xorb (a <? 0) (b <? 0)) (Z.abs a) (Z.abs b).

(** [x * y] on floats. *)
Definition mul (x y : spec_float) : spec_float :=
  let s := xorb (sign x) (sign y) in
  match x, y with
  | S754_nan, _ | _, S754_nan => S754_nan
  | S754_infinity _, S754_zero _ | S754_zero _, S754_infinity _ => S754_nan
  | S754_infinity _, _ | _, S754_infinity _ => S754_infinity s
  | S754_zero _, _ | _, S754_zero _ => S754_zero s
  | S754_finite _ _ _, S754_finite _ _ _ =>
      let '(nx, dx) := magnitude x in
      let '(ny, dy) := magnitude y in
      nearest s (nx * ny) (dx * dy)
  end.

(** [x * n]: the integer is converted to a float first. *)
Definition mul_int (x : spec_float) (n : Z) : spec_float := mul x (div n 1).

(** [n < x], compared exactly. *)
Definition int_lt (n : Z) (x : spec_float) : bool :=
  match x with
  | S754_nan => false
  | S754_infinity s => negb s
  | S754_zero _ => n <? 0
  | S754_finite s _ _ =>
      let '(num, den) := magnitude x in
      n * den <? (if s then - num else num)
  end.

(** [round(x, ndigits)]: the exact value of [x] is rounded to [ndigits]
    decimals, half to even, and the decimal converted to the nearest
    double, as CPython does through its shortest-representation routines. *)
Definition round (x : spec_float) (ndigits : Z) : spec_float :=
  match x with
  | S754_finite s _ _ =>
      let '(num, den) := magnitude x in
      if 0 <=? ndigits
      then nearest s (round_half_even (num * 10 ^ ndigits) den) (10 ^ ndigits)
      else nearest s (round_half_even num (den * 10 ^ (- ndigits))
                      * 10 ^ (- ndigits)) 1
  | _ => x
  end.

(** The Standard Library's reference operations, to compare with. *)
Definition of_Z (z : Z) : spec_float := binary_normalize 53 1024 z 0 false.

Definition eqb (x y : spec_float) : bool :=
  match x, y with
  | S754_finite s m e, S754_finite s' m' e' =>
      Bool.eqb s s' && Pos.eqb m m' && Z.eqb e e'
  | S754_zero s, S754_zero s' | S754_infinity s, S754_infinity s' => Bool.eqb s s'
  | S754_nan, S754_nan => true
  | _, _ => false
  end.

(** The pairs [(a, b)] with [-20 <= a, b < 40]. *)
Definition samples : list (Z * Z) :=
  List.flat_map
    (fun a => List.map (fun b => (Z.of_nat a - 20, Z.of_nat b - 20)) (List.seq 0 60))
    (List.seq 0 60).

End Binary64.

Definition binary64 : PyFloat :=
  {| float := spec_float;
     float_div := Binary64.div;
     float_mul_int := Binary64.mul_int;
     int_lt_float := Binary64.int_lt;
     float_round := Binary64.round |}.

(** The arithmetic mean of a list of integers that is not empty, as the
    specification words it: the sum divided by the number, exactly. *)
Definition arithmetic_mean (scores : list Z) : Q :=
  fold_right Z.add 0 scores # Pos.of_nat (List.length scores).

(** Texts of ASCII characters. *)
Definition is_ascii (s : string) : bool :=
  forallb (fun c => Nat.ltb (nat_of_ascii c) 128) (list_ascii_of_string s).

Definition long_text : string :=
  "One shall pay. Two. Three. Four. Five. Six. Seven. Eight. Nine. Ten. Eleven".

(** * Properties *)

(** ** Strings and counting *)

Lemma split_cons sep s : exists piece pieces, split sep s = piece :: pieces.
Proof.
  induction s as [|c r IH]; simpl.
  - eauto.
  - destruct (Ascii.eqb c sep); [eauto|].
    destruct IH as (piece & pieces & ->). eauto.
Qed.

Lemma split_length sep s : (1 <= List.length (split sep s))%nat.
Proof. destruct (split_cons sep s) as (? & ? & ->). simpl. lia. Qed.

Lemma fold_count (A : Type) (p : A -> bool) (l : list A) (a : Z) :
  fold_left (fun acc k => if p k then acc + 1 else acc) l a
  = a + Z.of_nat (List.length (List.filter p l)).
Proof.
  revert a. induction l as [|k l IH]; intros a; simpl.
  - lia.
  - rewrite IH. destruct (p k); simpl; lia.
Qed.

Lemma count_present_length keywords text :
  count_present keywords text
  = Z.of_nat (List.length (keywords_present keywords text)).
Proof. unfold count_present, keywords_present. now rewrite fold_count. Qed.

Lemma filter_length_le (A : Type) (p : A -> bool) (l : list A) :
  (List.length (List.filter p l) <= List.length l)%nat.
Proof.
  induction l as [|k l IH]; simpl; [lia|]. destruct (p k); simpl; lia.
Qed.

Lemma all_patterns_literal :
  forallb is_literal
          (boilerplate_patterns ++ List.concat (List.map snd clause_patterns))%list
  = true.
Proof. vm_compute. reflexivity. Qed.

(** ** Risk assessment *)

Lemma assess_risk_cases text :
  let h := count_present risk_keywords_high (lower text) in
  let m := count_present risk_keywords_medium (lower text) in
  let l := count_present risk_keywords_low (lower text) in
  (0 < h /\ _assess_risk_level text = "high")
  \/ (h <= 0 /\ l < m /\ _assess_risk_level text = "medium")
  \/ (h <= 0 /\ m <= l /\ _assess_risk_level text = "low").
Proof.
  intros h m l. unfold _assess_risk_level. fold h m l.
  destruct (Z.ltb_spec 0 h); [tauto|].
  destruct (Z.ltb_spec l m); tauto.
Qed.

(** C1, as written, fails: the second "may" of this sentence is counted by
    the specification's rule (two medium occurrences against one low, so
    'medium') and not by the code (one medium keyword against one low, a tie,
    so 'low'). With [str.count] in place of overlapping occurrences the
    specification's rule gives 'medium' as well. *)
Lemma C1_occurrences_refuted :
  tier_occurrences risk_keywords_high (lower may_text) = 0
  /\ tier_occurrences risk_keywords_medium (lower may_text) = 2
  /\ tier_occurrences risk_keywords_low (lower may_text) = 1
  /\ risk_by_occurrences may_text = "medium"
  /\ risk_by_count may_text = "medium"
  /\ _assess_risk_level may_text = "low"
  /\ _assess_risk_level may_text <> risk_by_occurrences may_text.
Proof. vm_compute. repeat split; discriminate. Qed.

(** C1, amended: the count of a tier is the number of its keywords that
    occur in the lower-cased text, each keyword counted once however often
    it occurs. The level is 'high' exactly when the high count is positive
    (some high keyword occurs); otherwise 'medium' exactly when the medium
    count exceeds the low count; otherwise, ties included, 'low'. *)
Theorem C1_risk_by_keywords_present (text : string) :
  let h := Z.of_nat (List.length (keywords_present risk_keywords_high (lower text))) in
  let m := Z.of_nat (List.length (keywords_present risk_keywords_medium (lower text))) in
  let l := Z.of_nat (List.length (keywords_present risk_keywords_low (lower text))) in
  (_assess_risk_level text = "high" <-> 0 < h)
  /\ (0 < h <-> exists keyword,
                  In keyword risk_keywords_high
                  /\ str_in keyword (lower text) = true)
  /\ (_assess_risk_level text = "medium" <-> h = 0 /\ l < m)
  /\ (_assess_risk_level text = "low" <-> h = 0 /\ m <= l)
  /\ 0 <= h <= 7 /\ 0 <= m <= 5 /\ 0 <= l <= 5.
Proof.
  intros h m l.
  pose proof (assess_risk_cases text) as H. simpl in H.
  rewrite !count_present_length in H. fold h m l in H.
  assert (Hh : 0 <= h <= 7).
  { subst h. pose proof (filter_length_le _ (fun k => str_in k (lower text))
                           risk_keywords_high) as Hle.
    unfold keywords_present. simpl List.length in Hle at 2. lia. }
  assert (Hm : 0 <= m <= 5).
  { subst m. pose proof (filter_length_le _ (fun k => str_in k (lower text))
                           risk_keywords_medium) as Hle.
    unfold keywords_present. simpl List.length in Hle at 2. lia. }
  assert (Hl : 0 <= l <= 5).
  { subst l. pose proof (filter_length_le _ (fun k => str_in k (lower text))
                           risk_keywords_low) as Hle.
    unfold keywords_present. simpl List.length in Hle at 2. lia. }
  split; [|split; [|split; [|split]]]; try tauto.
  - destruct H as [[? E]|[[? [? E]]|[? [? E]]]]; rewrite E;
      split; intros; try discriminate; try lia; reflexivity.
  - subst h. unfold keywords_present. split.
    + intros Hpos.
      destruct (List.filter (fun k => str_in k (lower text)) risk_keywords_high)
        as [|k ks] eqn:E; [simpl in Hpos; lia|].
      assert (Hin : In k (List.filter (fun k => str_in k (lower text))
                                      risk_keywords_high))
        by (rewrite E; now left).
      apply filter_In in Hin. exists k. exact Hin.
    + intros (k & Hk & Hs).
      assert (Hin : In k (List.filter (fun k => str_in k (lower text))
                                      risk_keywords_high))
        by (apply filter_In; split; assumption).
      destruct (List.filter _ risk_keywords_high); [destruct Hin|simpl; lia].
  - destruct H as [[? E]|[[? [? E]]|[? [? E]]]]; rewrite E;
      split; intros; try discriminate; try lia; try reflexivity.
  - destruct H as [[? E]|[[? [? E]]|[? [? E]]]]; rewrite E;
      split; intros; try discriminate; try lia; try reflexivity.
Qed.

(** ** Importance *)

Lemma fold_add2 (A : Type) (p : A -> bool) (l : list A) (a : Z) :
  fold_left (fun score k => if p k then score + 2 else score) l a
  = a + 2 * Z.of_nat (List.length (List.filter p l)).
Proof.
  revert a. induction l as [|k l IH]; intros a; simpl.
  - lia.
  - rewrite IH. destruct (p k); simpl; lia.
Qed.

Lemma importance_score_formula text tags :
  _calculate_importance_score text tags = importance_formula text tags.
Proof.
  unfold _calculate_importance_score, importance_formula.
  rewrite fold_add2.
  rewrite (fold_count _ (fun keyword => str_in (lower keyword) (lower text))).
  destruct (Nat.ltb 200 (String.length text)); f_equal; lia.
Qed.

Lemma importance_score_bounds text tags :
  5 <= _calculate_importance_score text tags <= 10.
Proof.
  rewrite importance_score_formula. unfold importance_formula.
  destruct (Nat.ltb 200 (String.length text)); lia.
Qed.

(** ** The classification loop *)

Lemma classify_from_elem i sentences r :
  r ∈ classify_from i sentences <->
  exists j sentence,
    sentences !! j = Some sentence
    /\ (20 <= String.length (strip sentence))%nat
    /\ match_types clause_patterns (lower sentence) <> []
    /\ r = clause_record (i + j) sentence
                         (match_types clause_patterns (lower sentence)).
Proof.
  revert i. induction sentences as [|s rest IH]; intros i; cbn [classify_from].
  - split.
    + intros H. inversion H.
    + intros (j & s & H & _). destruct j; discriminate.
  - destruct (Nat.ltb_spec (String.length (strip s)) 20) as [Hlt|Hge].
    + rewrite IH. split.
      * intros (j & s' & H1 & H2 & H3 & H4).
        exists (S j), s'. rewrite Nat.add_succ_r. auto.
      * intros (j & s' & H1 & H2 & H3 & H4). destruct j as [|j]; simpl in H1.
        -- injection H1 as <-. lia.
        -- exists j, s'. rewrite Nat.add_succ_r in H4. auto.
    + destruct (match_types clause_patterns (lower s)) as [|ty tys] eqn:Et.
      * rewrite IH. split.
        -- intros (j & s' & H1 & H2 & H3 & H4).
           exists (S j), s'. rewrite Nat.add_succ_r. auto.
        -- intros (j & s' & H1 & H2 & H3 & H4). destruct j as [|j]; simpl in H1.
           ++ injection H1 as <-. congruence.
           ++ exists j, s'. rewrite Nat.add_succ_r in H4. auto.
      * rewrite elem_of_cons, IH. split.
        -- intros [->|(j & s' & H1 & H2 & H3 & H4)].
           ++ exists 0%nat, s. rewrite Nat.add_0_r, Et.
              repeat split; [exact Hge|discriminate].
           ++ exists (S j), s'. rewrite Nat.add_succ_r. auto.
        -- intros (j & s' & H1 & H2 & H3 & H4). destruct j as [|j]; simpl in H1.
           ++ left. injection H1 as <-. rewrite Nat.add_0_r, Et in H4. exact H4.
           ++ right. exists j, s'. rewrite Nat.add_succ_r in H4. auto.
Qed.

Lemma classify_clauses_elem text r :
  r ∈ classify_clauses text <->
  exists i sentence,
    split "." text !! i = Some sentence
    /\ (20 <= String.length (strip sentence))%nat
    /\ match_types clause_patterns (lower sentence) <> []
    /\ r = clause_record i sentence
                         (match_types clause_patterns (lower sentence)).
Proof. unfold classify_clauses. now rewrite classify_from_elem. Qed.

Lemma classify_from_length i sentences :
  (List.length (classify_from i sentences) <= List.length sentences)%nat.
Proof.
  revert i. induction sentences as [|s rest IH]; intros i;
    cbn [classify_from List.length]; [lia|].
  specialize (IH (S i)).
  destruct (Nat.ltb (String.length (strip s)) 20); [lia|].
  destruct (match_types clause_patterns (lower s)); cbn [List.length]; lia.
Qed.

(** C2, as written, fails on the second segment: "breach" is no pattern of
    the liability category, so the tags cannot be {payment, liability}. *)
Lemma C2_liability_tag_refuted :
  ~ exists r1 r2 : ClauseRecord,
      classify_clauses scenario_text = [r1; r2]
      /\ list_to_set (clause_types r1) = ({[ "termination" ]} : gset string)
      /\ risk_level r1 = "low"
      /\ list_to_set (clause_types r2)
         = ({[ "payment"; "liability" ]} : gset string)
      /\ risk_level r2 = "high".
Proof.
  intros (r1 & r2 & Hc & _ & _ & Hset & _).
  assert (Hr2 : clause_types r2 = ["payment"]).
  { assert (E : classify_clauses scenario_text
                = [clause_record 0 "This Agreement shall terminate after 30 days"
                                 ["termination"];
                   clause_record 1 " The Client shall pay a penalty fee for any breach"
                                 ["payment"]])
      by (vm_compute; reflexivity).
    rewrite E in Hc. injection Hc as _ <-. reflexivity. }
  rewrite Hr2 in Hset.
  assert (Hin : "liability" ∈ ({[ "payment"; "liability" ]} : gset string))
    by set_solver.
  rewrite <- Hset in Hin. simpl in Hin.
  set_solver.
Qed.

(** C2, amended: on the scenario text classification yields two records,
    in order: segment 0 with tags [termination] and risk 'low', segment 1
    with the single tag [payment] (from "fee") and risk 'high' (from
    "penalty"). *)
Theorem C2_scenario_classification :
  classify_clauses scenario_text
  = [ {| clause_id := 0;
         clause_text := "This Agreement shall terminate after 30 days";
         clause_types := ["termination"];
         risk_level := "low";
         importance_score := 8;
         position := 0 |};
      {| clause_id := 1;
         clause_text := "The Client shall pay a penalty fee for any breach";
         clause_types := ["payment"];
         risk_level := "high";
         importance_score := 9;
         position := 1 |} ]
  /\ count_present risk_keywords_high
       (lower "This Agreement shall terminate after 30 days") = 0
  /\ count_present risk_keywords_medium
       (lower "This Agreement shall terminate after 30 days") = 0
  /\ count_present risk_keywords_low
       (lower "This Agreement shall terminate after 30 days") = 1
  /\ any_pattern ["liable"; "liability"; "responsible"; "damages"; "loss"]
       (lower " The Client shall pay a penalty fee for any breach") = false
  /\ str_in "penalty" (lower " The Client shall pay a penalty fee for any breach")
     = true.
Proof. vm_compute. repeat split. Qed.

(** C9: classification yields at most one record per segment of the text
    split on the period. *)
Theorem C9_records_at_most_segments (text : string) :
  (List.length (classify_clauses text) <= List.length (split "." text))%nat.
Proof. apply classify_from_length. Qed.

(** C4: the importance score of every record that classification yields
    lies between 1 and 10, and is base 5 plus 2 per tag among liability,
    payment, termination and intellectual_property, plus 1 when the raw
    segment is longer than 200 characters, plus the number of legal keywords
    present capped at 3, the whole capped at 10. *)
Theorem C4_importance_score_range (text : string) (r : ClauseRecord)
        (Hr : r ∈ classify_clauses text) :
  1 <= importance_score r <= 10
  /\ exists sentence,
       split "." text !! clause_id r = Some sentence
       /\ importance_score r
          = _calculate_importance_score sentence (clause_types r)
       /\ importance_score r = importance_formula sentence (clause_types r).
Proof.
  apply classify_clauses_elem in Hr as (i & sentence & Hi & _ & _ & ->).
  unfold clause_record. cbn [importance_score clause_id clause_types]. split.
  - pose proof (importance_score_bounds sentence
                  (match_types clause_patterns (lower sentence))). lia.
  - exists sentence. split; [exact Hi|]. split; [reflexivity|].
    apply importance_score_formula.
Qed.

Lemma C4_importance_score_range_witness :
  let r := clause_record 1 " The Client shall pay a penalty fee for any breach"
                         ["payment"] in
  r ∈ classify_clauses scenario_text /\ 1 <= importance_score r <= 10.
Proof.
  intros r.
  assert (Hr : r ∈ classify_clauses scenario_text).
  { apply list_elem_of_In. vm_compute. right. left. reflexivity. }
  split; [exact Hr|].
  exact (proj1 (C4_importance_score_range scenario_text r Hr)).
Defined.

(** ** The timeline and boilerplate loops *)

Lemma timeline_from_elem (R : Regex) i sentences (e : TimelineEntry) :
  e ∈ timeline_from i sentences <->
  exists j sentence,
    sentences !! j = Some sentence
    /\ e = sentence_timeline (i + j) sentence
    /\ has_timeline e = true.
Proof.
  revert i. induction sentences as [|s rest IH]; intros i; cbn [timeline_from].
  - split.
    + intros H. inversion H.
    + intros (j & s & H & _). destruct j; discriminate.
  - destruct (has_timeline (sentence_timeline i s)) eqn:Eh.
    + rewrite elem_of_cons, IH. split.
      * intros [->|(j & s' & H1 & H2 & H3)].
        -- exists 0%nat, s. rewrite Nat.add_0_r. auto.
        -- exists (S j), s'. rewrite Nat.add_succ_r. auto.
      * intros (j & s' & H1 & H2 & H3). destruct j as [|j]; simpl in H1.
        -- left. injection H1 as <-. rewrite Nat.add_0_r in H2. exact H2.
        -- right. exists j, s'. rewrite Nat.add_succ_r in H2. auto.
    + rewrite IH. split.
      * intros (j & s' & H1 & H2 & H3).
        exists (S j), s'. rewrite Nat.add_succ_r. auto.
      * intros (j & s' & H1 & H2 & H3). destruct j as [|j]; simpl in H1.
        -- injection H1 as <-. rewrite Nat.add_0_r in H2. congruence.
        -- exists j, s'. rewrite Nat.add_succ_r in H2. auto.
Qed.

Lemma boilerplate_from_elem i sentences (m : BoilerplateMatch) :
  m ∈ boilerplate_from i sentences <->
  exists j sentence pattern,
    sentences !! j = Some sentence
    /\ first_pattern boilerplate_patterns (lower sentence) = Some pattern
    /\ m = boilerplate_match (i + j) sentence pattern.
Proof.
  revert i. induction sentences as [|s rest IH]; intros i; cbn [boilerplate_from].
  - split.
    + intros H. inversion H.
    + intros (j & s & p & H & _). destruct j; discriminate.
  - destruct (first_pattern boilerplate_patterns (lower s)) as [p0|] eqn:Ep.
    + rewrite elem_of_cons, IH. split.
      * intros [->|(j & s' & p & H1 & H2 & H3)].
        -- exists 0%nat, s, p0. rewrite Nat.add_0_r. auto.
        -- exists (S j), s', p. rewrite Nat.add_succ_r. auto.
      * intros (j & s' & p & H1 & H2 & H3). destruct j as [|j]; simpl in H1.
        -- left. injection H1 as <-. rewrite Nat.add_0_r in H3. congruence.
        -- right. exists j, s', p. rewrite Nat.add_succ_r in H3. auto.
    + rewrite IH. split.
      * intros (j & s' & p & H1 & H2 & H3).
        exists (S j), s', p. rewrite Nat.add_succ_r. auto.
      * intros (j & s' & p & H1 & H2 & H3). destruct j as [|j]; simpl in H1.
        -- injection H1 as <-. congruence.
        -- exists j, s', p. rewrite Nat.add_succ_r in H3. auto.
Qed.

(** C3: a segment whose trimmed text is shorter than 20 characters gives
    no record in the classification, whatever it contains; the timeline
    pass and the boilerplate pass have no such filter: the segment's entry
    is in their result exactly when it has a date, duration or deadline cue,
    respectively a boilerplate pattern. *)
Theorem C3_short_segment_asymmetry (R : Regex) (text : string) (i : nat)
        (sentence : string)
        (Hi : split "." text !! i = Some sentence)
        (Hshort : (String.length (strip sentence) < 20)%nat) :
  (forall r, r ∈ classify_clauses text -> clause_id r <> i)
  /\ (sentence_timeline i sentence ∈ extract_timeline_info text
      <-> has_timeline (sentence_timeline i sentence) = true)
  /\ (forall pattern,
        boilerplate_match i sentence pattern ∈ detect_boilerplate text
        <-> first_pattern boilerplate_patterns (lower sentence) = Some pattern).
Proof.
  split; [|split].
  - intros r Hr Hid.
    apply classify_clauses_elem in Hr as (j & s & Hj & Hlen & _ & ->).
    cbn in Hid. subst j. rewrite Hi in Hj. injection Hj as <-. lia.
  - unfold extract_timeline_info. rewrite timeline_from_elem. split.
    + intros (j & s & Hj & He & Hh).
      assert (j = i) by (apply (f_equal sentence_id) in He; cbn in He; lia).
      subst j. rewrite Hi in Hj. injection Hj as <-. exact Hh.
    + intros Hh. exists i, sentence. auto.
  - intros pattern. unfold detect_boilerplate. rewrite boilerplate_from_elem.
    split.
    + intros (j & s & p & Hj & Hp & Hm).
      assert (j = i) by (apply (f_equal boilerplate_id) in Hm; cbn in Hm; lia).
      subst j. rewrite Hi in Hj. injection Hj as <-.
      apply (f_equal pattern_matched) in Hm. cbn in Hm. congruence.
    + intros Hp. exists i, sentence, pattern. auto.
Qed.

Lemma C3_short_segment_asymmetry_witness :
  split "." short_text !! 0%nat = Some short_text
  /\ (String.length (strip short_text) < 20)%nat
  /\ classify_clauses short_text = []
  /\ @sentence_timeline no_match 0 short_text
       ∈ @extract_timeline_info no_match short_text
  /\ boilerplate_match 0 short_text "no waiver" ∈ detect_boilerplate short_text.
Proof.
  assert (Hi : split "." short_text !! 0%nat = Some short_text) by reflexivity.
  assert (Hshort : (String.length (strip short_text) < 20)%nat)
    by (vm_compute; lia).
  destruct (C3_short_segment_asymmetry no_match short_text 0 short_text Hi Hshort)
    as (_ & Ht & Hb).
  split; [exact Hi|]. split; [exact Hshort|]. split; [reflexivity|].
  split.
  - apply Ht. reflexivity.
  - apply Hb. reflexivity.
Defined.

(** ** Boilerplate detection *)

Lemma first_pattern_some patterns s p :
  first_pattern patterns s = Some p ->
  exists before after,
    patterns = (before ++ p :: after)%list
    /\ re_search p s = true
    /\ forall q, q ∈ before -> re_search q s = false.
Proof.
  induction patterns as [|p0 rest IH]; cbn [first_pattern]; [discriminate|].
  destruct (re_search p0 s) eqn:E.
  - intros [= <-]. exists [], rest. repeat split; [exact E|].
    intros q Hq. inversion Hq.
  - intros H. destruct (IH H) as (before & after & -> & Hp & Hq).
    exists (p0 :: before), after. repeat split; [exact Hp|].
    intros q Hin. apply elem_of_cons in Hin as [->|Hin]; auto.
Qed.

Lemma first_pattern_none patterns s p :
  first_pattern patterns s = None -> p ∈ patterns -> re_search p s = false.
Proof.
  induction patterns as [|p0 rest IH]; cbn [first_pattern]; intros H Hin.
  - inversion Hin.
  - destruct (re_search p0 s) eqn:E; [discriminate|].
    apply elem_of_cons in Hin as [->|Hin]; auto.
Qed.

Lemma boilerplate_from_ids i sentences :
  Forall (fun k => (i <= k)%nat)
         (List.map boilerplate_id (boilerplate_from i sentences))
  /\ List.NoDup (List.map boilerplate_id (boilerplate_from i sentences))
  /\ (List.length (boilerplate_from i sentences) <= List.length sentences)%nat.
Proof.
  revert i. induction sentences as [|s rest IH]; intros i;
    cbn [boilerplate_from List.length].
  - repeat split; [constructor|constructor|lia].
  - destruct (IH (S i)) as (Hge & Hnd & Hlen).
    assert (Hge' : Forall (fun k => (i <= k)%nat)
                     (List.map boilerplate_id (boilerplate_from (S i) rest))).
    { eapply List.Forall_impl; [|exact Hge]. cbn. intros; lia. }
    destruct (first_pattern boilerplate_patterns (lower s)).
    + cbn [List.map List.length boilerplate_match boilerplate_id].
      repeat split; [constructor; [lia|exact Hge']| |lia].
      apply List.NoDup_cons; [|exact Hnd].
      intros Hin. rewrite List.Forall_forall in Hge.
      specialize (Hge _ Hin). cbn in Hge. lia.
    + repeat split; [exact Hge'|exact Hnd|lia].
Qed.

(** C7: boilerplate detection yields at most one match per segment; the
    pattern recorded is the first of the six, in their fixed order, that
    occurs in the lower-cased segment; the confidence is 0.8; every segment
    in which some pattern occurs yields a match, whatever its length; and on
    the governing-law sentence there is exactly one match, for the first
    pattern. *)
Theorem C7_boilerplate_first_match (text : string) :
  List.NoDup (List.map boilerplate_id (detect_boilerplate text))
  /\ (List.length (detect_boilerplate text) <= List.length (split "." text))%nat
  /\ (forall m, m ∈ detect_boilerplate text ->
        exists sentence before after,
          split "." text !! boilerplate_id m = Some sentence
          /\ boilerplate_text m = strip sentence
          /\ boilerplate_patterns = (before ++ pattern_matched m :: after)%list
          /\ re_search (pattern_matched m) (lower sentence) = true
          /\ (forall q, q ∈ before -> re_search q (lower sentence) = false)
          /\ confidence m = 8 # 10)
  /\ (forall i sentence p,
        split "." text !! i = Some sentence ->
        p ∈ boilerplate_patterns ->
        re_search p (lower sentence) = true ->
        exists m, m ∈ detect_boilerplate text /\ boilerplate_id m = i)
  /\ detect_boilerplate "This agreement shall be governed by the laws of Delaware."
     = [ {| boilerplate_id := 0;
            boilerplate_text := "This agreement shall be governed by the laws of Delaware";
            pattern_matched := "this agreement shall be governed by";
            confidence := 8 # 10 |} ]
  /\ boilerplate_patterns !! 0%nat = Some "this agreement shall be governed by"
  /\ List.length boilerplate_patterns = 6%nat.
Proof.
  unfold detect_boilerplate.
  destruct (boilerplate_from_ids 0 (split "." text)) as (_ & Hnd & Hlen).
  split; [exact Hnd|]. split; [exact Hlen|]. split; [|split].
  - intros m Hm.
    apply boilerplate_from_elem in Hm as (j & s & p & Hj & Hp & ->).
    apply first_pattern_some in Hp as (before & after & Hsplit & Hmatch & Hfirst).
    exists s, before, after. cbn. repeat split; assumption.
  - intros i sentence p Hi Hp Hmatch.
    destruct (first_pattern boilerplate_patterns (lower sentence)) as [p0|] eqn:E.
    + exists (boilerplate_match i sentence p0). split; [|reflexivity].
      apply boilerplate_from_elem. exists i, sentence, p0. auto.
    + rewrite (first_pattern_none _ _ _ E Hp) in Hmatch. discriminate.
  - repeat split.
Qed.

(** ** Document comparison *)

(** C5: swapping the two documents leaves the common types unchanged and
    exchanges the two sets of unique types. *)
Theorem C5_compare_symmetric (A B : string) :
  list_to_set (common_types (compare_documents A B))
  = (list_to_set (common_types (compare_documents B A)) : gset string)
  /\ list_to_set (doc1_unique_types (compare_documents A B))
     = (list_to_set (doc2_unique_types (compare_documents B A)) : gset string)
  /\ list_to_set (doc2_unique_types (compare_documents A B))
     = (list_to_set (doc1_unique_types (compare_documents B A)) : gset string).
Proof.
  unfold compare_documents. cbn.
  rewrite !list_to_set_elements_L.
  repeat split. apply (comm_L (∩)).
Qed.

(** ** Tone *)

Section ToneProperties.
Context {F : PyFloat}.

Lemma normalize_ok total max_score :
  max_score <> 0 ->
  normalize total max_score
  = Ok (py_min_int (float_mul_int (float_div total max_score) 10) 10).
Proof.
  intros H. unfold normalize, py_truediv.
  destruct (Z.eqb_spec max_score 0); [contradiction|]. reflexivity.
Qed.

Lemma sample_length text :
  (1 <= List.length (firstn 10 (split "." text)) <= 10)%nat.
Proof.
  rewrite length_firstn. pose proof (split_length "." text). lia.
Qed.

Lemma analyze_tone_ok sentiment_analyzer text :
  exists profile,
    analyze_tone sentiment_analyzer text = Ok profile
    /\ overall_sentiment profile
       = if sentiment_analyzer then "formal" else "neutral".
Proof.
  unfold analyze_tone. destruct sentiment_analyzer; cbn [negb].
  - destruct (tone_totals (firstn 10 (split "." text))) as [[f a] r].
    pose proof (sample_length text) as Hlen.
    rewrite !normalize_ok by lia. cbn. eauto.
  - eauto.
Qed.
End ToneProperties.

(** C8: with the sentiment backend available, the tone profile is always
    produced and its overall sentiment is "formal", whatever the text and
    the totals computed from it. *)
Theorem C8_overall_sentiment_formal (F : PyFloat) (text : string) :
  exists formality assertiveness risk,
    analyze_tone true text
    = Ok {| overall_sentiment := "formal";
            formality_score := formality;
            assertiveness_score := assertiveness;
            risk_tone := risk |}.
Proof.
  destruct (analyze_tone_ok true text) as ([s f a r] & E & Hs).
  cbn in Hs. subst s. eauto.
Qed.

(** C10: splitting any string on the period gives at least one segment, so
    the sample of at most ten segments is never empty, both divisions of the
    normalization are defined, and tone analysis never raises. *)
Theorem C10_tone_no_division_by_zero (F : PyFloat) (text : string) :
  (1 <= List.length (split "." text))%nat
  /\ (1 <= List.length (firstn 10 (split "." text)) <= 10)%nat
  /\ (forall total,
        normalize total (Z.of_nat (List.length (firstn 10 (split "." text))))
        = Ok (py_min_int
                (float_mul_int
                   (float_div total
                      (Z.of_nat (List.length (firstn 10 (split "." text)))))
                   10)
                10))
  /\ (forall sentiment_analyzer e,
        analyze_tone sentiment_analyzer text <> Raise e)
  /\ List.length (split "." "") = 1%nat
  /\ List.length (split "." "no period") = 1%nat.
Proof.
  pose proof (sample_length text) as Hlen.
  split; [apply split_length|]. split; [exact Hlen|]. split; [|split].
  - intros total. apply normalize_ok. lia.
  - intros sa e. destruct (analyze_tone_ok sa text) as (p & -> & _). discriminate.
  - split; reflexivity.
Qed.

(** ** Statistics *)

Section AnalysisProperties.
Context {R : Regex} {F : PyFloat}.

Lemma average_importance_ok (cs : list ClauseRecord) :
  average_importance cs
  = Ok (match cs with
        | [] => Int 0
        | _ :: _ =>
            Float (float_round
                     (float_div (sum_importance cs) (Z.of_nat (List.length cs)))
                     2)
        end).
Proof.
  destruct cs as [|c cs]; [reflexivity|].
  unfold average_importance, py_truediv.
  destruct (Z.eqb_spec (Z.of_nat (List.length (c :: cs))) 0) as [E|_];
    [cbn in E; lia|]. reflexivity.
Qed.
End AnalysisProperties.

(** ** Binary64: rounding to the nearest double *)

Module Binary64Facts.
Import Binary64.

Lemma round_half_even_spec num den :
  0 < den ->
  - den <= 2 * (round_half_even num den * den - num) <= den.
Proof.
  intros Hden. unfold round_half_even.
  pose proof (Z.div_mod num den ltac:(lia)) as Hdm.
  pose proof (Z.mod_pos_bound num den Hden) as Hr.
  set (m := num / den) in *. set (r := num mod den) in *.
  replace (num - m * den) with r by lia.
  destruct (Z.ltb_spec (2 * r) den); [lia|].
  destruct (Z.ltb_spec den (2 * r)); [lia|].
  destruct (Z.even m); lia.
Qed.

Lemma scaled_nonneg p q e : 0 <= e -> scaled p q e = (p, q * 2 ^ e).
Proof. intros H. unfold scaled. destruct (Z.leb_spec 0 e); [reflexivity|lia]. Qed.

Lemma scaled_neg p q e : e < 0 -> scaled p q e = (p * 2 ^ (- e), q).
Proof. intros H. unfold scaled. destruct (Z.leb_spec 0 e); [lia|reflexivity]. Qed.

Lemma scaled_succ p q e :
  0 < q ->
  let '(num, den) := scaled p q e in
  let '(num', den') := scaled p q (e + 1) in
  0 < den /\ 0 < den' /\ num' * (2 * den) = num * den'.
Proof.
  intros Hq.
  destruct (Z.leb_spec 0 e) as [He|He].
  - rewrite !scaled_nonneg by lia. rewrite Z.pow_add_r by lia.
    change (2 ^ 1) with 2.
    pose proof (Z.pow_pos_nonneg 2 e ltac:(lia) He).
    set (P := 2 ^ e) in *. nia.
  - destruct (Z.eq_dec e (-1)) as [->|Hne].
    + rewrite scaled_neg, scaled_nonneg by lia.
      change (2 ^ (- -1)) with 2. change (2 ^ (-1 + 1)) with 1. nia.
    + rewrite !scaled_neg by lia.
      replace (- e) with (- (e + 1) + 1) by lia.
      rewrite Z.pow_add_r by lia. change (2 ^ 1) with 2.
      pose proof (Z.pow_pos_nonneg 2 (- (e + 1)) ltac:(lia) ltac:(lia)).
      set (P := 2 ^ (- (e + 1))) in *. nia.
Qed.

Lemma binade_spec p q :
  0 < p -> 0 < q ->
  let '(num, den) := scaled p q (binade p q) in
  0 < den /\ 2 ^ 52 * den <= num < 2 ^ 53 * den.
Proof.
  intros Hp Hq. unfold binade.
  pose proof (Z.log2_spec p Hp) as Ha. pose proof (Z.log2_spec q Hq) as Hb.
  pose proof (Z.log2_nonneg p) as Ha0. pose proof (Z.log2_nonneg q) as Hb0.
  set (a := Z.log2 p) in *. set (b := Z.log2 q) in *.
  rewrite Z.pow_succ_r in Ha, Hb by lia.
  assert (Hfirst : let '(num, den) := scaled p q (a - b - 53) in
                   0 < den /\ 2 ^ 52 * den <= num < 2 ^ 54 * den).
  { destruct (Z.leb_spec 0 (a - b - 53)) as [He|He].
    - rewrite scaled_nonneg by lia.
      assert (E : 2 ^ a = 2 ^ b * 2 ^ 53 * 2 ^ (a - b - 53)).
      { rewrite <- !Z.pow_add_r by lia. f_equal. lia. }
      pose proof (Z.pow_pos_nonneg 2 (a - b - 53) ltac:(lia) He) as HP.
      pose proof (Z.pow_pos_nonneg 2 b ltac:(lia) Hb0) as HB.
      set (P := 2 ^ (a - b - 53)) in *. set (A := 2 ^ a) in *. set (B := 2 ^ b) in *.
      change (2 ^ 53) with 9007199254740992 in *.
      change (2 ^ 52) with 4503599627370496. change (2 ^ 54) with 18014398509481984.
      nia.
    - rewrite scaled_neg by lia.
      assert (E : 2 ^ a * 2 ^ (- (a - b - 53)) = 2 ^ 53 * 2 ^ b).
      { rewrite <- !Z.pow_add_r by lia. f_equal. lia. }
      pose proof (Z.pow_pos_nonneg 2 (- (a - b - 53)) ltac:(lia) ltac:(lia)) as HP.
      pose proof (Z.pow_pos_nonneg 2 b ltac:(lia) Hb0) as HB.
      set (P := 2 ^ (- (a - b - 53))) in *. set (A := 2 ^ a) in *. set (B := 2 ^ b) in *.
      change (2 ^ 53) with 9007199254740992 in *.
      change (2 ^ 52) with 4503599627370496. change (2 ^ 54) with 18014398509481984.
      nia. }
  pose proof (scaled_succ p q (a - b - 53) Hq) as Hs.
  destruct (scaled p q (a - b - 53)) as [num den] eqn:E0.
  destruct (Z.ltb_spec num (2 ^ 53 * den)).
  - rewrite E0. lia.
  - destruct (scaled p q (a - b - 53 + 1)) as [num' den'].
    change (2 ^ 53) with 9007199254740992 in *.
    change (2 ^ 52) with 4503599627370496 in *.
    change (2 ^ 54) with 18014398509481984 in *.
    nia.
Qed.

Lemma binade_range p q :
  0 < q -> 5 * q <= p <= 10 * q ->
  binade p q = if p <? 8 * q then -50 else -49.
Proof.
  intros Hq Hp. pose proof (binade_spec p q ltac:(lia) Hq) as H.
  set (e := binade p q) in *.
  destruct (Z.leb_spec 0 e) as [He|He].
  - rewrite scaled_nonneg in H by lia.
    pose proof (Z.pow_pos_nonneg 2 e ltac:(lia) He).
    set (P := 2 ^ e) in *. change (2 ^ 52) with 4503599627370496 in *. nia.
  - rewrite scaled_neg in H by lia.
    destruct (Z.ltb_spec p (8 * q)) as [Hlt|Hge].
    + destruct (Z.lt_trichotomy (- e) 50) as [Hl|[Hl|Hl]]; [| lia |].
      * pose proof (Z.pow_le_mono_r 2 (- e) 49 ltac:(lia) ltac:(lia)) as Hm.
        pose proof (Z.pow_pos_nonneg 2 (- e) ltac:(lia) ltac:(lia)).
        set (t := 2 ^ (- e)) in *. change (2 ^ 49) with 562949953421312 in *.
        change (2 ^ 52) with 4503599627370496 in *. nia.
      * pose proof (Z.pow_le_mono_r 2 51 (- e) ltac:(lia) ltac:(lia)) as Hm.
        set (t := 2 ^ (- e)) in *. change (2 ^ 51) with 2251799813685248 in *.
        change (2 ^ 53) with 9007199254740992 in *. nia.
    + destruct (Z.lt_trichotomy (- e) 49) as [Hl|[Hl|Hl]]; [| lia |].
      * pose proof (Z.pow_le_mono_r 2 (- e) 48 ltac:(lia) ltac:(lia)) as Hm.
        pose proof (Z.pow_pos_nonneg 2 (- e) ltac:(lia) ltac:(lia)).
        set (t := 2 ^ (- e)) in *. change (2 ^ 48) with 281474976710656 in *.
        change (2 ^ 52) with 4503599627370496 in *. nia.
      * pose proof (Z.pow_le_mono_r 2 50 (- e) ltac:(lia) ltac:(lia)) as Hm.
        set (t := 2 ^ (- e)) in *. change (2 ^ 50) with 1125899906842624 in *.
        change (2 ^ 53) with 9007199254740992 in *. nia.
Qed.

Lemma nearest_in_range p q :
  0 < q -> 5 * q <= p <= 10 * q ->
  exists m e,
    nearest false p q = S754_finite false (Z.to_pos m) e
    /\ (e = -50 \/ e = -49)
    /\ 2 ^ 52 <= m < 2 ^ 53
    /\ - q <= 2 * (m * q - p * 2 ^ (- e)) <= q.
Proof.
  intros Hq Hp. unfold nearest, exponent.
  destruct (Z.eqb_spec p 0) as [|_]; [lia|].
  pose proof (binade_spec p q ltac:(lia) Hq) as Hb.
  rewrite (binade_range p q Hq Hp) in *.
  destruct (Z.ltb_spec p (8 * q)) as [Hlt|Hge].
  - change (Z.max (-50) (-1074)) with (-50).
    rewrite scaled_neg in * by lia. change (2 ^ (- -50)) with (2 ^ 50) in *.
    pose proof (round_half_even_spec (p * 2 ^ 50) q Hq) as Hr.
    set (m := round_half_even (p * 2 ^ 50) q) in *.
    change (2 ^ 50) with 1125899906842624 in *.
    change (2 ^ 52) with 4503599627370496 in *.
    change (2 ^ 53) with 9007199254740992 in *.
    destruct (Z.eqb_spec m 9007199254740992) as [E|E].
    + exists 4503599627370496, (-49). split; [reflexivity|].
      change (2 ^ (- -49)) with 562949953421312. lia.
    + assert (4503599627370496 <= m < 9007199254740992) by nia.
      destruct (Z.eqb_spec m 0); [lia|].
      exists m, (-50). split; [reflexivity|].
      change (2 ^ (- -50)) with 1125899906842624. lia.
  - change (Z.max (-49) (-1074)) with (-49).
    rewrite scaled_neg in * by lia. change (2 ^ (- -49)) with (2 ^ 49) in *.
    pose proof (round_half_even_spec (p * 2 ^ 49) q Hq) as Hr.
    set (m := round_half_even (p * 2 ^ 49) q) in *.
    change (2 ^ 49) with 562949953421312 in *.
    change (2 ^ 52) with 4503599627370496 in *.
    change (2 ^ 53) with 9007199254740992 in *.
    assert (4503599627370496 <= m < 9007199254740992) by nia.
    destruct (Z.eqb_spec m 9007199254740992) as [E|E]; [lia|].
    destruct (Z.eqb_spec m 0); [lia|].
    exists m, (-49). split; [reflexivity|].
    change (2 ^ (- -49)) with 562949953421312. lia.
Qed.

Lemma div_nonneg a b : 0 <= a -> 0 < b -> div a b = nearest false a b.
Proof.
  intros Ha Hb. unfold div.
  destruct (Z.ltb_spec a 0); [lia|]. destruct (Z.ltb_spec b 0); [lia|].
  rewrite !Z.abs_eq by lia. reflexivity.
Qed.

Lemma round_finite m e ndigits :
  0 < m -> e < 0 -> 0 <= ndigits ->
  round (S754_finite false (Z.to_pos m) e) ndigits
  = nearest false (round_half_even (m * 10 ^ ndigits) (2 ^ (- e))) (10 ^ ndigits).
Proof.
  intros Hm He Hn. unfold round, magnitude.
  rewrite Z2Pos.id by lia. rewrite scaled_nonneg by lia.
  destruct (Z.leb_spec 0 ndigits); [|lia].
  rewrite Z.mul_1_l. reflexivity.
Qed.

Lemma value_finite m e :
  0 < m -> e < 0 ->
  value (S754_finite false (Z.to_pos m) e) = m # Z.to_pos (2 ^ (- e)).
Proof.
  intros Hm He. unfold value, magnitude.
  rewrite Z2Pos.id by lia. rewrite scaled_nonneg by lia.
  rewrite Z.mul_1_l. reflexivity.
Qed.

Lemma scale_bounds a b n : 0 < n -> - b <= a <= b -> - (b * n) <= a * n <= b * n.
Proof. intros Hn [H1 H2]. split; nia. Qed.

Lemma mean_rounded total n :
  0 < n -> 5 * n <= total <= 10 * n ->
  exists k,
    500 <= k <= 1000
    /\ round (div total n) 2 = div k 100
    /\ (n < 2 ^ 42 -> (Qabs ((k # 100) - (total # Z.to_pos n)) <= 1 # 200)%Q)
    /\ (Qabs ((k # 100) - (total # Z.to_pos n)) <= (1 # 200) + (1 # 2 ^ 50))%Q
    /\ (Qabs (value (round (div total n) 2) - (total # Z.to_pos n))
        <= (1 # 200) + (1 # 2 ^ 49))%Q.
Proof.
  intros Hn Ht.
  rewrite div_nonneg by lia.
  destruct (nearest_in_range total n Hn Ht) as (m1 & e1 & -> & He1 & Hm1 & Hb1).
  rewrite round_finite by lia. change (10 ^ 2) with 100.
  assert (Hpow : 0 < 2 ^ (- e1)) by (apply Z.pow_pos_nonneg; lia).
  pose proof (round_half_even_spec (m1 * 100) (2 ^ (- e1)) Hpow) as Hk.
  set (k := round_half_even (m1 * 100) (2 ^ (- e1))) in *. clearbody k.
  pose proof (scale_bounds _ _ n Hn Hk) as Hkn.
  set (t1 := 2 ^ (- e1)) in *.
  assert (Ht1 : t1 = 1125899906842624 \/ t1 = 562949953421312)
    by (subst t1; destruct He1 as [-> | ->]; [left|right]; reflexivity).
  clearbody t1.
  change (2 ^ 52) with 4503599627370496 in *.
  change (2 ^ 53) with 9007199254740992 in *.
  assert (Hm1' : 5 * t1 <= m1 <= 10 * t1) by (destruct Ht1; subst t1; nia).
  assert (Hk' : 500 <= k <= 1000) by (destruct Ht1; subst t1; lia).
  exists k. split; [exact Hk'|].
  rewrite <- div_nonneg by lia. split; [reflexivity|].
  rewrite div_nonneg by lia.
  destruct (nearest_in_range k 100 ltac:(lia) ltac:(lia))
    as (m2 & e2 & -> & He2 & Hm2 & Hb2).
  rewrite value_finite by (change (2 ^ 52) with 4503599627370496 in *; lia).
  pose proof (scale_bounds _ _ n Hn Hb2) as Hmn.
  set (t2 := 2 ^ (- e2)) in *.
  assert (Ht2 : t2 = 1125899906842624 \/ t2 = 562949953421312)
    by (subst t2; destruct He2 as [-> | ->]; [left|right]; reflexivity).
  assert (Ht2' : Z.pos (Z.to_pos t2) = t2) by (apply Z2Pos.id; destruct Ht2; lia).
  clearbody t2.
  split; [intros Hsmall; change (2 ^ 42) with 4398046511104 in Hsmall|split];
    apply Qabs_Qle_condition; unfold Qle, Qminus, Qplus, Qopp;
    cbn [Qnum Qden]; rewrite ?Pos2Z.inj_mul, ?Ht2', ?Z2Pos.id by lia.
  all: change (Z.pos (2 ^ 50)) with 1125899906842624;
    change (Z.pos (2 ^ 49)) with 562949953421312.
  - destruct Ht1; subst t1; lia.
  - destruct Ht1; subst t1; lia.
  - destruct Ht1, Ht2; subst t1 t2; lia.
Qed.

(** On the sample pairs the operations agree with the reference
    operations of the Standard Library ([SFdiv], [SFmul], [SFltb]). *)
Lemma agrees_with_reference_on_samples :
  List.forallb
    (fun ab =>
       let x := SFdiv 53 1024 (of_Z (fst ab)) (of_Z (snd ab)) in
       (snd ab =? 0)
       || (eqb (div (fst ab) (snd ab)) x
           && eqb (mul_int (div (fst ab) (snd ab)) 10) (SFmul 53 1024 x (of_Z 10))
           && Bool.eqb (int_lt 3 (div (fst ab) (snd ab))) (SFltb (of_Z 3) x)))
    samples = true.
Proof. vm_compute. reflexivity. Qed.

(** Three means as Python rounds them: [round(201 / 40, 2)] is 5.03 (the
    double of 5.025 lies above it), [round(41 / 8, 2)] is 5.12 (5.125 is a
    double, the tie goes to the even digit) and [round(1003 / 200, 2)] is
    5.01 (the double of 5.015 lies below it). *)
Lemma round_examples :
  round (div 201 40) 2 = div 503 100
  /\ round (div 41 8) 2 = div 512 100
  /\ round (div 1003 200) 2 = div 501 100
  /\ div 503 100 = S754_finite false 5663276531418399 (-50).
Proof. vm_compute. repeat split. Qed.

End Binary64Facts.

Lemma to_pos_of_nat n : (0 < n)%nat -> Z.to_pos (Z.of_nat n) = Pos.of_nat n.
Proof.
  destruct n as [|n]; [lia|]. intros _.
  rewrite <- Pos.of_nat_succ. reflexivity.
Qed.

Lemma sum_importance_fold_right cs :
  sum_importance cs = fold_right Z.add 0 (List.map importance_score cs).
Proof.
  unfold sum_importance.
  assert (H : forall a,
             fold_left (fun acc c => acc + importance_score c) cs a
             = a + fold_right Z.add 0 (List.map importance_score cs)).
  { induction cs as [|c cs IH]; intros a; cbn [fold_left List.map fold_right];
      [lia|]. rewrite IH. lia. }
  rewrite H. lia.
Qed.

Lemma sum_in_range (scores : list Z) :
  List.Forall (fun s => 5 <= s <= 10) scores ->
  5 * Z.of_nat (List.length scores) <= fold_right Z.add 0 scores
  <= 10 * Z.of_nat (List.length scores).
Proof.
  induction 1 as [|s scores Hs Hall IH]; cbn [fold_right List.length]; lia.
Qed.

Lemma classified_scores_in_range text :
  List.Forall (fun s => 5 <= s <= 10)
              (List.map importance_score (classify_clauses text)).
Proof.
  apply List.Forall_forall. intros s Hs.
  apply in_map_iff in Hs as (c & <- & Hc).
  apply list_elem_of_In, classify_clauses_elem in Hc as (i & sentence & _ & _ & _ & ->).
  apply importance_score_bounds.
Qed.

(** The rounded mean of scores between 5 and 10. *)
Lemma mean_of_scores_rounded (scores : list Z) :
  scores <> [] ->
  List.Forall (fun s => 5 <= s <= 10) scores ->
  let x := Binary64.round
             (Binary64.div (fold_right Z.add 0 scores)
                           (Z.of_nat (List.length scores))) 2 in
  (Qabs (Binary64.value x - arithmetic_mean scores) <= (1 # 200) + (1 # 2 ^ 49))%Q
  /\ exists k : Z,
       500 <= k <= 1000
       /\ x = Binary64.div k 100
       /\ (Z.of_nat (List.length scores) < 2 ^ 42 ->
           (Qabs ((k # 100) - arithmetic_mean scores) <= 1 # 200)%Q)
       /\ (Qabs ((k # 100) - arithmetic_mean scores) <= (1 # 200) + (1 # 2 ^ 50))%Q.
Proof.
  intros Hne Hall. cbv zeta.
  assert (Hn : (0 < List.length scores)%nat)
    by (destruct scores; [contradiction|cbn; lia]).
  pose proof (sum_in_range scores Hall) as Hsum.
  destruct (Binary64Facts.mean_rounded (fold_right Z.add 0 scores)
              (Z.of_nat (List.length scores)) ltac:(lia) Hsum)
    as (k & Hk & Hx & Hq0 & Hq1 & Hq2).
  unfold arithmetic_mean. rewrite <- (to_pos_of_nat _ Hn).
  split; [exact Hq2|]. exists k. auto.
Qed.

Lemma analyze_document_answers (R : Regex) (F : PyFloat)
      (sentiment_analyzer : bool) (text : string) :
  match analyze_document sentiment_analyzer text with
  | Response200 body =>
      text <> ""
      /\ clauses body = classify_clauses text
      /\ total_clauses (statistics body) = List.length (classify_clauses text)
      /\ avg_importance_score (statistics body)
         = match classify_clauses text with
           | [] => Int 0
           | _ :: _ =>
               Float (float_round
                        (float_div (sum_importance (classify_clauses text))
                                   (Z.of_nat (List.length (classify_clauses text))))
                        2)
           end
  | Response400 _ => text = ""
  | Response500 _ => False
  end.
Proof.
  unfold analyze_document.
  destruct (String.eqb_spec text "") as [E|E]; [exact E|].
  unfold analyze.
  destruct (analyze_tone_ok sentiment_analyzer text) as (p & -> & _).
  cbn [mbind result_bind].
  rewrite average_importance_ok. cbn.
  split; [exact E|]. split; [reflexivity|]. split; [reflexivity|].
  destruct (classify_clauses text); reflexivity.
Qed.

(** C6: for a text that is not empty the route answers with the analysis,
    never with the error of a failed analysis. With no record the average
    importance is the integer 0, and nothing is divided. With records it is
    Python's [round(total / n, 2)] on binary64 floats, where [total] is the
    sum of the scores and [n] their number: the double [x] that stands for a
    two-decimal number [k / 100] (the nearest double to it); below [2 ^ 42]
    records [k / 100] is a two-decimal number nearest to the exact
    arithmetic mean (within 0.005 of it), in any case it is so up to
    [2 ^ -50], and [x] is within 0.005, up to [2 ^ -49], of the mean. *)
Theorem C6_average_importance (R : Regex) (sentiment_analyzer : bool)
        (text : string) :
  match @analyze_document R binary64 sentiment_analyzer text with
  | Response200 body =>
      let scores := List.map importance_score (classify_clauses text) in
      let avg := avg_importance_score (statistics body) in
      let x := Binary64.round
                 (Binary64.div (fold_right Z.add 0 scores)
                               (Z.of_nat (List.length scores))) 2 in
      text <> ""
      /\ clauses body = classify_clauses text
      /\ total_clauses (statistics body) = List.length scores
      /\ (scores = [] -> avg = Int 0)
      /\ (scores <> [] ->
          avg = @Float binary64 x
          /\ (Qabs (Binary64.value x - arithmetic_mean scores)
              <= (1 # 200) + (1 # 2 ^ 49))%Q
          /\ exists k : Z,
               500 <= k <= 1000
               /\ x = Binary64.div k 100
               /\ (Z.of_nat (List.length scores) < 2 ^ 42 ->
                   (Qabs ((k # 100) - arithmetic_mean scores) <= 1 # 200)%Q)
               /\ (Qabs ((k # 100) - arithmetic_mean scores)
                   <= (1 # 200) + (1 # 2 ^ 50))%Q)
  | Response400 _ => text = ""
  | Response500 _ => False
  end.
Proof.
  pose proof (analyze_document_answers R binary64 sentiment_analyzer text) as H.
  destruct (analyze_document sentiment_analyzer text) as [body|err|err];
    [|exact H|exact H].
  destruct H as (Hne & Hcl & Htot & Havg). cbv zeta.
  rewrite length_map.
  split; [exact Hne|]. split; [exact Hcl|]. split; [exact Htot|].
  split.
  - intros E. rewrite Havg.
    destruct (classify_clauses text); [reflexivity|discriminate].
  - intros E. split.
    + rewrite Havg, sum_importance_fold_right.
      destruct (classify_clauses text); [contradiction|reflexivity].
    + pose proof (mean_of_scores_rounded _ E (classified_scores_in_range text)) as Hm.
      cbv zeta in Hm. rewrite length_map in Hm. exact Hm.
Qed.

(** * Further properties of the code *)

(** ** Characters and case *)

Lemma lower_char_idem c : lower_char (lower_char c) = lower_char c.
Proof. destruct c as [[] [] [] [] [] [] [] []]; reflexivity. Qed.

Lemma lower_char_space c : is_space (lower_char c) = is_space c.
Proof. destruct c as [[] [] [] [] [] [] [] []]; reflexivity. Qed.

Lemma lower_char_period c : Ascii.eqb (lower_char c) "." = Ascii.eqb c ".".
Proof. destruct c as [[] [] [] [] [] [] [] []]; reflexivity. Qed.

Lemma lower_char_not_I c : Ascii.eqb (lower_char c) "I" = false.
Proof. destruct c as [[] [] [] [] [] [] [] []]; reflexivity. Qed.

Lemma lower_idem s : lower (lower s) = lower s.
Proof.
  induction s as [|c r IH]; cbn [lower]; [reflexivity|].
  now rewrite lower_char_idem, IH.
Qed.

Lemma lower_length s : String.length (lower s) = String.length s.
Proof. induction s as [|c r IH]; cbn [lower String.length]; congruence. Qed.

Lemma lower_lstrip s : lstrip (lower s) = lower (lstrip s).
Proof.
  induction s as [|c r IH]; cbn [lower lstrip]; [reflexivity|].
  rewrite lower_char_space. destruct (is_space c); [exact IH|reflexivity].
Qed.

Lemma lower_rstrip s : rstrip (lower s) = lower (rstrip s).
Proof.
  induction s as [|c r IH]; cbn [lower rstrip]; [reflexivity|].
  rewrite IH, lower_char_space.
  destruct (rstrip r); cbn [lower]; [destruct (is_space c)|]; reflexivity.
Qed.

Lemma lower_strip s : strip (lower s) = lower (strip s).
Proof. unfold strip. now rewrite lower_lstrip, lower_rstrip. Qed.

Lemma lower_split s : split "." (lower s) = List.map lower (split "." s).
Proof.
  induction s as [|c r IH]; cbn [lower split List.map]; [reflexivity|].
  rewrite lower_char_period, IH.
  destruct (Ascii.eqb c "."); [reflexivity|].
  destruct (split_cons "." r) as (p & ps & ->). reflexivity.
Qed.

(** ** Loops over the enumerated sentences *)

Lemma enumerate_omap_elem (B : Type) (f : nat -> string -> option B) i l (b : B) :
  b ∈ enumerate_omap f i l <->
  exists j s, l !! j = Some s /\ f (i + j)%nat s = Some b.
Proof.
  revert i. induction l as [|s rest IH]; intros i; cbn [enumerate_omap].
  - split.
    + intros H. inversion H.
    + intros (j & s & H & _). destruct j; discriminate.
  - assert (Hrest : b ∈ enumerate_omap f (S i) rest <->
                    exists j s', (s :: rest) !! S j = Some s'
                                 /\ f (i + S j)%nat s' = Some b).
    { rewrite IH. split; intros (j & s' & H1 & H2); exists j, s';
        [rewrite Nat.add_succ_r|rewrite Nat.add_succ_r in H2]; auto. }
    destruct (f i s) as [b0|] eqn:E.
    + rewrite elem_of_cons, Hrest. split.
      * intros [->|(j & s' & H1 & H2)]; [|eauto].
        exists 0%nat, s. rewrite Nat.add_0_r. auto.
      * intros (j & s' & H1 & H2). destruct j as [|j]; [|eauto].
        left. cbn in H1. injection H1 as <-. rewrite Nat.add_0_r in H2. congruence.
    + rewrite Hrest. split.
      * intros (j & s' & H1 & H2). eauto.
      * intros (j & s' & H1 & H2). destruct j as [|j]; [|eauto].
        cbn in H1. injection H1 as <-. rewrite Nat.add_0_r in H2. congruence.
Qed.

Lemma enumerate_omap_increasing (B : Type) (f : nat -> string -> option B)
      (key : B -> nat) :
  (forall i s b, f i s = Some b -> key b = i) ->
  forall l i a b x y,
    enumerate_omap f i l !! a = Some x ->
    enumerate_omap f i l !! b = Some y ->
    (a < b)%nat -> (i <= key x < key y)%nat.
Proof.
  intros Hkey.
  assert (Hlow : forall l i a x,
             enumerate_omap f i l !! a = Some x -> (i <= key x)%nat).
  { intros l i a x H. apply list_elem_of_lookup_2 in H.
    apply enumerate_omap_elem in H as (j & s & _ & H).
    apply Hkey in H. lia. }
  induction l as [|s rest IH]; intros i a b x y Ha Hb Hab;
    cbn [enumerate_omap] in Ha, Hb.
  - destruct a; discriminate.
  - destruct (f i s) as [b0|] eqn:E.
    + destruct b as [|b]; [lia|]. cbn in Hb. destruct a as [|a].
      * cbn in Ha. injection Ha as <-. apply Hkey in E. apply Hlow in Hb. lia.
      * cbn in Ha. assert (a < b)%nat by lia.
        pose proof (IH (S i) a b x y Ha Hb H). lia.
    + pose proof (IH (S i) a b x y Ha Hb Hab). lia.
Qed.

Lemma classify_from_omap i l : classify_from i l = enumerate_omap classify_one i l.
Proof.
  revert i. induction l as [|s rest IH]; intros i;
    cbn [classify_from enumerate_omap]; [reflexivity|].
  unfold classify_one. rewrite IH.
  destruct (Nat.ltb (String.length (strip s)) 20); [reflexivity|].
  destruct (match_types clause_patterns (lower s)); reflexivity.
Qed.

Lemma timeline_from_omap (R : Regex) i l :
  timeline_from i l
  = enumerate_omap (fun i s => if has_timeline (sentence_timeline i s)
                               then Some (sentence_timeline i s) else None) i l.
Proof.
  revert i. induction l as [|s rest IH]; intros i;
    cbn [timeline_from enumerate_omap]; [reflexivity|].
  rewrite IH. destruct (has_timeline (sentence_timeline i s)); reflexivity.
Qed.

Lemma boilerplate_from_omap i l :
  boilerplate_from i l
  = enumerate_omap (fun i s =>
                      match first_pattern boilerplate_patterns (lower s) with
                      | Some pattern => Some (boilerplate_match i s pattern)
                      | None => None
                      end) i l.
Proof.
  revert i. induction l as [|s rest IH]; intros i;
    cbn [boilerplate_from enumerate_omap]; [reflexivity|].
  rewrite IH. destruct (first_pattern boilerplate_patterns (lower s)); reflexivity.
Qed.

(** X1: the three passes report in document order. In each result the
    segment indices increase strictly along the list, so no segment is
    reported twice and none out of turn. *)
Theorem X1_results_in_document_order (R : Regex) (text : string) :
  (forall a b x y,
      classify_clauses text !! a = Some x ->
      classify_clauses text !! b = Some y ->
      (a < b)%nat -> (clause_id x < clause_id y)%nat)
  /\ (forall a b x y,
        extract_timeline_info text !! a = Some x ->
        extract_timeline_info text !! b = Some y ->
        (a < b)%nat -> (sentence_id x < sentence_id y)%nat)
  /\ (forall a b x y,
        detect_boilerplate text !! a = Some x ->
        detect_boilerplate text !! b = Some y ->
        (a < b)%nat -> (boilerplate_id x < boilerplate_id y)%nat).
Proof.
  unfold classify_clauses, extract_timeline_info, detect_boilerplate.
  rewrite classify_from_omap, timeline_from_omap, boilerplate_from_omap.
  split; [|split]; intros a b x y Ha Hb Hab.
  - eapply (enumerate_omap_increasing _ _ clause_id); [|exact Ha|exact Hb|exact Hab].
    intros i s r. unfold classify_one.
    destruct (Nat.ltb (String.length (strip s)) 20); [discriminate|].
    destruct (match_types clause_patterns (lower s)); [discriminate|].
    intros [= <-]. reflexivity.
  - eapply (enumerate_omap_increasing _ _ sentence_id); [|exact Ha|exact Hb|exact Hab].
    intros i s e. cbn beta.
    destruct (has_timeline (sentence_timeline i s)); [|discriminate].
    intros [= <-]. reflexivity.
  - eapply (enumerate_omap_increasing _ _ boilerplate_id); [|exact Ha|exact Hb|exact Hab].
    intros i s m. cbn beta.
    destruct (first_pattern boilerplate_patterns (lower s)); [|discriminate].
    intros [= <-]. reflexivity.
Qed.

(** ** Substrings *)

Lemma app_cons c (a b : string) : String c a ++ b = String c (a ++ b).
Proof. reflexivity. Qed.

Lemma app_nil (b : string) : "" ++ b = b.
Proof. reflexivity. Qed.

Lemma prefix_app n h : String.prefix n h = true <-> exists b, h = n ++ b.
Proof.
  revert h. induction n as [|c n IH]; intros h.
  - split; [intros _; exists h; reflexivity|intros _; destruct h; reflexivity].
  - destruct h as [|d h]; cbn [String.prefix].
    + split; [discriminate|intros (b & H); discriminate].
    + destruct (Ascii.ascii_dec c d) as [->|Hne].
      * rewrite IH. split; intros (b & H); exists b;
          rewrite app_cons in *; congruence.
      * split; [discriminate|]. intros (b & H). rewrite app_cons in H. congruence.
Qed.

Lemma app_assoc_string (a b c : string) : (a ++ b) ++ c = a ++ (b ++ c).
Proof.
  induction a as [|x a IH]; [reflexivity|]. rewrite !app_cons. congruence.
Qed.

Lemma str_in_app n h : str_in n h = true <-> exists a b, h = a ++ n ++ b.
Proof.
  induction h as [|d h IH]; cbn [str_in].
  - rewrite prefix_app. split.
    + intros (b & H). exists "", b. exact H.
    + intros (a & b & H). destruct a; [exists b; exact H|discriminate].
  - rewrite orb_true_iff, prefix_app, IH. split.
    + intros [(b & H)|(a & b & H)].
      * exists "", b. exact H.
      * exists (String d a), b. rewrite app_cons. congruence.
    + intros (a & b & H). destruct a as [|x a].
      * left. exists b. exact H.
      * right. exists a, b. rewrite app_cons in H. congruence.
Qed.

Lemma str_in_trans a b c :
  str_in a b = true -> str_in b c = true -> str_in a c = true.
Proof.
  rewrite !str_in_app. intros (x & y & ->) (u & v & ->).
  exists (u ++ x), (y ++ v). now rewrite !app_assoc_string.
Qed.

Lemma str_in_context n h a b :
  str_in n h = true -> str_in n (a ++ h ++ b) = true.
Proof.
  intros H. apply (str_in_trans _ h); [exact H|].
  apply str_in_app. eauto.
Qed.

Lemma lower_app a b : lower (a ++ b) = lower a ++ lower b.
Proof.
  induction a as [|x a IH]; [reflexivity|].
  rewrite app_cons. cbn [lower]. rewrite app_cons. congruence.
Qed.

Lemma lstrip_suffix s : exists a, s = a ++ lstrip s.
Proof.
  induction s as [|c r (a & IH)]; cbn [lstrip].
  - exists "". reflexivity.
  - destruct (is_space c).
    + exists (String c a). rewrite app_cons. congruence.
    + exists "". reflexivity.
Qed.

Lemma rstrip_prefix s : exists b, s = rstrip s ++ b.
Proof.
  induction s as [|c r (b & IH)]; cbn [rstrip].
  - exists "". reflexivity.
  - destruct (rstrip r) as [|d r'] eqn:E.
    + destruct (is_space c).
      * exists (String c r). reflexivity.
      * exists r. reflexivity.
    + exists b. rewrite app_cons. congruence.
Qed.

Lemma strip_context s : exists a b, s = a ++ strip s ++ b.
Proof.
  unfold strip. destruct (lstrip_suffix s) as (a & Ha).
  destruct (rstrip_prefix (lstrip s)) as (b & Hb).
  exists a, b. congruence.
Qed.

(** What occurs in the trimmed segment, in lower case, occurs in the raw
    one. *)
Lemma str_in_lower_strip n s :
  str_in n (lower (strip s)) = true -> str_in n (lower s) = true.
Proof.
  intros H. destruct (strip_context s) as (a & b & E).
  rewrite E at 1. rewrite !lower_app. now apply str_in_context.
Qed.

(** ** Tags *)

Lemma any_pattern_true patterns s :
  any_pattern patterns s = true <->
  exists p, p ∈ patterns /\ str_in p s = true.
Proof.
  induction patterns as [|p0 rest IH]; cbn [any_pattern].
  - split; [discriminate|]. intros (p & H & _). inversion H.
  - unfold re_search. destruct (str_in p0 s) eqn:E.
    + split; [|reflexivity]. intros _. exists p0. split; [left|exact E].
    + rewrite IH. split; intros (p & Hp & Hs).
      * exists p. split; [right; exact Hp|exact Hs].
      * apply elem_of_cons in Hp as [->|Hp]; [congruence|eauto].
Qed.

Lemma match_types_elem table s ty :
  ty ∈ match_types table s <->
  exists patterns, (ty, patterns) ∈ table /\ any_pattern patterns s = true.
Proof.
  induction table as [|[ty0 pats0] rest IH]; cbn [match_types].
  - split; [intros H; inversion H|]. intros (p & H & _). inversion H.
  - destruct (any_pattern pats0 s) eqn:E.
    + rewrite elem_of_cons, IH. split.
      * intros [->|(pats & Hp & Hs)].
        -- exists pats0. split; [left|exact E].
        -- exists pats. split; [right; exact Hp|exact Hs].
      * intros (pats & Hp & Hs). apply elem_of_cons in Hp as [[= -> ->]|Hp];
          [left; reflexivity|right; eauto].
    + rewrite IH. split; intros (pats & Hp & Hs).
      * exists pats. split; [right; exact Hp|exact Hs].
      * apply elem_of_cons in Hp as [[= -> ->]|Hp]; [congruence|eauto].
Qed.

Lemma match_types_sublist table s :
  match_types table s `sublist_of` List.map fst table.
Proof.
  induction table as [|[ty0 pats0] rest IH]; cbn [match_types List.map fst].
  - constructor.
  - destruct (any_pattern pats0 s); [apply sublist_skip|apply sublist_cons]; exact IH.
Qed.

Lemma clause_pattern_names_nodup : NoDup (List.map fst clause_patterns).
Proof. apply (bool_decide_unpack _). vm_compute. reflexivity. Qed.

(** Membership in a list written out. *)
Ltac in_list := apply list_elem_of_In; cbn [In clause_patterns]; solve [auto 12].

Lemma record_of_segment text i sentence ty :
  split "." text !! i = Some sentence ->
  (20 <= String.length (strip sentence))%nat ->
  ty ∈ match_types clause_patterns (lower sentence) ->
  clause_record i sentence (match_types clause_patterns (lower sentence))
    ∈ classify_clauses text.
Proof.
  intros Hi Hlen Hty. apply classify_clauses_elem. exists i, sentence.
  repeat split; [exact Hi|exact Hlen|].
  intros E. rewrite E in Hty. inversion Hty.
Qed.

Lemma risk_level_values text :
  _assess_risk_level text = "high"
  \/ _assess_risk_level text = "medium"
  \/ _assess_risk_level text = "low".
Proof.
  destruct (assess_risk_cases text) as [[_ E]|[(_ & _ & E)|(_ & _ & E)]]; auto.
Qed.

(** X2: every record of the classification describes one segment: its id
    and position are the segment's index, its text is the trimmed segment
    and has at least 20 characters, its tags are not empty, hold no tag
    twice and follow the order of the category table, and its risk level is
    one of high, medium and low. *)
Theorem X2_record_invariants (text : string) (r : ClauseRecord)
        (Hr : r ∈ classify_clauses text) :
  position r = clause_id r
  /\ (clause_id r < List.length (split "." text))%nat
  /\ (exists sentence,
         split "." text !! clause_id r = Some sentence
         /\ clause_text r = strip sentence
         /\ risk_level r = _assess_risk_level sentence)
  /\ (20 <= String.length (clause_text r))%nat
  /\ clause_types r <> []
  /\ NoDup (clause_types r)
  /\ clause_types r `sublist_of` List.map fst clause_patterns
  /\ (risk_level r = "high" \/ risk_level r = "medium" \/ risk_level r = "low").
Proof.
  apply classify_clauses_elem in Hr as (i & sentence & Hi & Hlen & Hne & ->).
  unfold clause_record.
  cbn [position clause_id clause_text clause_types risk_level].
  pose proof (match_types_sublist clause_patterns (lower sentence)) as Hsub.
  split; [reflexivity|].
  split; [apply lookup_lt_Some in Hi; exact Hi|].
  split; [exists sentence; auto|].
  split; [exact Hlen|]. split; [exact Hne|].
  split; [eapply sublist_NoDup; [exact clause_pattern_names_nodup|exact Hsub]|].
  split; [exact Hsub|apply risk_level_values].
Qed.

Lemma X2_record_invariants_witness :
  let r := clause_record 0 "This Agreement shall terminate after 30 days"
                         ["termination"] in
  r ∈ classify_clauses scenario_text
  /\ position r = clause_id r
  /\ NoDup (clause_types r).
Proof.
  intros r.
  assert (Hr : r ∈ classify_clauses scenario_text).
  { apply list_elem_of_In. vm_compute. left. reflexivity. }
  pose proof (X2_record_invariants scenario_text r Hr) as H.
  split; [exact Hr|]. split; [apply H|apply H].
Defined.

(** X3: a segment whose trimmed text has at least 20 characters has a
    record carrying a given tag exactly when one of the patterns of that
    category occurs in the lower-cased raw segment. *)
Theorem X3_tagged_iff_pattern_occurs (text : string) (i : nat)
        (sentence ty : string)
        (Hi : split "." text !! i = Some sentence)
        (Hlen : (20 <= String.length (strip sentence))%nat) :
  (exists r, r ∈ classify_clauses text /\ clause_id r = i /\ ty ∈ clause_types r)
  <-> (exists patterns p,
          (ty, patterns) ∈ clause_patterns
          /\ p ∈ patterns
          /\ str_in p (lower sentence) = true).
Proof.
  split.
  - intros (r & Hr & Hid & Hty).
    apply classify_clauses_elem in Hr as (j & s & Hj & _ & _ & ->).
    unfold clause_record in Hid, Hty. cbn [clause_id clause_types] in Hid, Hty.
    subst j. rewrite Hi in Hj. injection Hj as <-.
    apply match_types_elem in Hty as (pats & Hp & Hany).
    apply any_pattern_true in Hany as (p & Hin & Hs). eauto.
  - intros (pats & p & Hp & Hin & Hs).
    assert (Hty : ty ∈ match_types clause_patterns (lower sentence)).
    { apply match_types_elem. exists pats. split; [exact Hp|].
      apply any_pattern_true. eauto. }
    exists (clause_record i sentence (match_types clause_patterns (lower sentence))).
    split; [|split; [reflexivity|exact Hty]].
    apply classify_clauses_elem. exists i, sentence.
    repeat split; [exact Hi|exact Hlen|].
    intros E. rewrite E in Hty. inversion Hty.
Qed.

Lemma X3_tagged_iff_pattern_occurs_witness :
  split "." scenario_text !! 0%nat
  = Some "This Agreement shall terminate after 30 days"
  /\ (20 <= String.length (strip "This Agreement shall terminate after 30 days"))%nat
  /\ exists r, r ∈ classify_clauses scenario_text
               /\ clause_id r = 0%nat /\ "termination" ∈ clause_types r.
Proof.
  assert (Hi : split "." scenario_text !! 0%nat
               = Some "This Agreement shall terminate after 30 days")
    by reflexivity.
  assert (Hlen : (20 <= String.length
                          (strip "This Agreement shall terminate after 30 days"))%nat)
    by (vm_compute; lia).
  split; [exact Hi|]. split; [exact Hlen|].
  apply (X3_tagged_iff_pattern_occurs scenario_text 0 _ "termination" Hi Hlen).
  exists ["terminate"; "end"; "expire"; "cancel"; "dissolution"], "terminate".
  split; [|split; [left|reflexivity]].
  right. left.
Defined.

Lemma str_in_IP s : str_in "IP" (lower s) = false.
Proof.
  induction s as [|c r IH]; [reflexivity|].
  cbn [lower str_in String.prefix]. rewrite IH.
  destruct (Ascii.ascii_dec "I" (lower_char c)) as [E|_]; [|reflexivity].
  pose proof (lower_char_not_I c) as H. rewrite <- E in H. discriminate.
Qed.

(** X4: the pattern "IP" of the intellectual_property category never
    matches, because it is searched in the lower-cased segment: the tag is
    given exactly when one of the four other patterns occurs. *)
Theorem X4_upper_case_pattern_is_dead (sentence : string) :
  re_search "IP" (lower sentence) = false
  /\ ("intellectual_property" ∈ match_types clause_patterns (lower sentence)
      <-> exists p,
            p ∈ ["copyright"; "patent"; "trademark"; "intellectual property"]
            /\ str_in p (lower sentence) = true).
Proof.
  split; [apply str_in_IP|].
  rewrite match_types_elem. split.
  - intros (pats & Hp & Hany).
    assert (pats = ["copyright"; "patent"; "trademark"; "intellectual property"; "IP"]).
    { unfold clause_patterns in Hp.
      repeat (apply elem_of_cons in Hp as [Hp|Hp]; [congruence|]).
      inversion Hp. }
    subst pats. apply any_pattern_true in Hany as (p & Hin & Hs).
    exists p. split; [|exact Hs].
    repeat (apply elem_of_cons in Hin as [->|Hin]; [in_list|]).
    apply elem_of_cons in Hin as [->|Hin]; [|inversion Hin].
    rewrite str_in_IP in Hs. discriminate.
  - intros (p & Hin & Hs).
    exists ["copyright"; "patent"; "trademark"; "intellectual property"; "IP"].
    split; [in_list|].
    apply any_pattern_true. exists p. split; [|exact Hs].
    repeat (apply elem_of_cons in Hin as [->|Hin]; [in_list|]). inversion Hin.
Qed.

Lemma tag_of_pattern sentence ty patterns p :
  (ty, patterns) ∈ clause_patterns ->
  p ∈ patterns ->
  str_in p (lower sentence) = true ->
  ty ∈ match_types clause_patterns (lower sentence).
Proof.
  intros Hp Hin Hs. apply match_types_elem. exists patterns.
  split; [exact Hp|]. apply any_pattern_true. eauto.
Qed.

(** X5: two patterns tag a segment twice. A segment (of trimmed length at
    least 20) in which "jurisdiction" occurs is tagged dispute_resolution
    and governing_law; one in which "amend" occurs is tagged amendment and,
    through the pattern "end", termination. *)
Theorem X5_overlapping_patterns (text : string) (i : nat) (sentence : string)
        (Hi : split "." text !! i = Some sentence)
        (Hlen : (20 <= String.length (strip sentence))%nat) :
  (str_in "jurisdiction" (lower sentence) = true ->
   exists r, r ∈ classify_clauses text /\ clause_id r = i
             /\ "dispute_resolution" ∈ clause_types r
             /\ "governing_law" ∈ clause_types r)
  /\ (str_in "amend" (lower sentence) = true ->
      exists r, r ∈ classify_clauses text /\ clause_id r = i
                /\ "termination" ∈ clause_types r
                /\ "amendment" ∈ clause_types r).
Proof.
  split; intros Hs;
    exists (clause_record i sentence (match_types clause_patterns (lower sentence))).
  - assert (H1 : "dispute_resolution" ∈ match_types clause_patterns (lower sentence)).
    { eapply (tag_of_pattern _ _ _ "jurisdiction"); [in_list|in_list|exact Hs]. }
    assert (H2 : "governing_law" ∈ match_types clause_patterns (lower sentence)).
    { eapply (tag_of_pattern _ _ _ "jurisdiction"); [in_list|in_list|exact Hs]. }
    split; [exact (record_of_segment _ _ _ _ Hi Hlen H1)|]. auto.
  - assert (H1 : "termination" ∈ match_types clause_patterns (lower sentence)).
    { eapply (tag_of_pattern _ _ _ "end"); [in_list|in_list|].
      apply (str_in_trans _ "amend"); [reflexivity|exact Hs]. }
    assert (H2 : "amendment" ∈ match_types clause_patterns (lower sentence)).
    { eapply (tag_of_pattern _ _ _ "amend"); [in_list|in_list|exact Hs]. }
    split; [exact (record_of_segment _ _ _ _ Hi Hlen H1)|]. auto.
Qed.

Lemma X5_overlapping_patterns_witness :
  split "." amend_text !! 0%nat = Some amend_text
  /\ (20 <= String.length (strip amend_text))%nat
  /\ exists r, r ∈ classify_clauses amend_text /\ clause_id r = 0%nat
               /\ "termination" ∈ clause_types r
               /\ "amendment" ∈ clause_types r.
Proof.
  assert (Hi : split "." amend_text !! 0%nat = Some amend_text) by reflexivity.
  assert (Hlen : (20 <= String.length (strip amend_text))%nat)
    by (vm_compute; lia).
  split; [exact Hi|]. split; [exact Hlen|].
  apply (X5_overlapping_patterns amend_text 0 amend_text Hi Hlen). reflexivity.
Defined.

(** X6: "commercially reasonable" counts twice in the medium tier, once
    for itself and once for "reasonable"; so with no high-tier keyword and at
    most one low-tier keyword present the level is 'medium'. *)
Theorem X6_commercially_reasonable_counts_twice (text : string)
        (H : str_in "commercially reasonable" (lower text) = true) :
  2 <= count_present risk_keywords_medium (lower text)
  /\ (count_present risk_keywords_high (lower text) = 0 ->
      count_present risk_keywords_low (lower text) <= 1 ->
      _assess_risk_level text = "medium").
Proof.
  assert (H' : str_in "reasonable" (lower text) = true)
    by (apply (str_in_trans _ "commercially reasonable"); [reflexivity|exact H]).
  assert (Hm : 2 <= count_present risk_keywords_medium (lower text)).
  { unfold count_present, risk_keywords_medium. cbn [fold_left].
    rewrite H, H'.
    destruct (str_in "may" (lower text)), (str_in "discretion" (lower text)),
      (str_in "best efforts" (lower text)); lia. }
  split; [exact Hm|]. intros Hh Hl.
  destruct (assess_risk_cases text) as [[? E]|[(_ & _ & E)|(_ & ? & E)]];
    [lia|exact E|lia].
Qed.

Lemma X6_commercially_reasonable_counts_twice_witness :
  str_in "commercially reasonable"
         (lower "The Supplier shall use Commercially Reasonable efforts") = true
  /\ _assess_risk_level "The Supplier shall use Commercially Reasonable efforts"
     = "medium".
Proof.
  assert (H : str_in "commercially reasonable"
                (lower "The Supplier shall use Commercially Reasonable efforts")
              = true) by reflexivity.
  split; [exact H|].
  apply (X6_commercially_reasonable_counts_twice _ H); vm_compute;
    [reflexivity|discriminate].
Defined.

(** ** Letter case *)

Lemma assess_risk_lower s : _assess_risk_level (lower s) = _assess_risk_level s.
Proof. unfold _assess_risk_level. now rewrite lower_idem. Qed.

Lemma importance_lower s tags :
  _calculate_importance_score (lower s) tags = _calculate_importance_score s tags.
Proof. unfold _calculate_importance_score. now rewrite lower_length, lower_idem. Qed.

Lemma classify_from_lower i l :
  classify_from i (List.map lower l) = List.map lower_record (classify_from i l).
Proof.
  revert i. induction l as [|s rest IH]; intros i;
    cbn [classify_from List.map]; [reflexivity|].
  rewrite lower_strip, lower_length, lower_idem, IH.
  destruct (Nat.ltb (String.length (strip s)) 20); [reflexivity|].
  destruct (match_types clause_patterns (lower s)) as [|ty tys]; [reflexivity|].
  cbn [List.map]. f_equal.
  unfold lower_record, clause_record.
  cbn [clause_id clause_text clause_types risk_level importance_score position].
  now rewrite lower_strip, assess_risk_lower, importance_lower.
Qed.

(** X7: on ASCII text classification does not depend on letter case.
    Classifying the lower-cased text gives the same records (ids, tags,
    risk levels, importance scores), with lower-cased texts. *)
Theorem X7_classification_ignores_case (text : string)
        (Hascii : is_ascii text = true) :
  classify_clauses (lower text) = List.map lower_record (classify_clauses text).
Proof.
  unfold classify_clauses. rewrite lower_split. apply classify_from_lower.
Qed.

Lemma X7_classification_ignores_case_witness :
  is_ascii scenario_text = true
  /\ classify_clauses (lower scenario_text)
     = List.map lower_record (classify_clauses scenario_text).
Proof.
  assert (H : is_ascii scenario_text = true) by reflexivity.
  split; [exact H|]. exact (X7_classification_ignores_case scenario_text H).
Defined.

(** ** Rewriting suggestions *)

Lemma suggestions_elem cs s :
  s ∈ generate_rewriting_suggestions cs <->
  exists c, c ∈ cs
            /\ (risk_level c = "high" \/ 8 <= importance_score c)
            /\ s = suggestion_for c
            /\ issues s <> [].
Proof.
  induction cs as [|c0 rest IH]; cbn [generate_rewriting_suggestions].
  - split; [intros H; inversion H|]. intros (c & H & _). inversion H.
  - assert (Hcond : String.eqb (risk_level c0) "high" || (8 <=? importance_score c0)
                    = true
                    <-> risk_level c0 = "high" \/ 8 <= importance_score c0).
    { rewrite orb_true_iff, String.eqb_eq, Z.leb_le. reflexivity. }
    destruct (String.eqb (risk_level c0) "high" || (8 <=? importance_score c0))
      eqn:E.
    + destruct (issues (suggestion_for c0)) as [|x xs] eqn:Ei.
      * rewrite IH. split; intros (c & Hc & Hr & Hs & Hi).
        -- exists c. split; [right; exact Hc|auto].
        -- apply elem_of_cons in Hc as [->|Hc]; [|eauto].
           subst s. contradiction.
      * rewrite elem_of_cons, IH. split.
        -- intros [->|(c & Hc & Hr & Hs & Hi)].
           ++ exists c0. split; [left|]. split; [apply Hcond; reflexivity|].
              split; [reflexivity|]. rewrite Ei. discriminate.
           ++ exists c. split; [right; exact Hc|auto].
        -- intros (c & Hc & Hr & Hs & Hi).
           apply elem_of_cons in Hc as [->|Hc]; [left; exact Hs|right; eauto].
    + rewrite IH. split; intros (c & Hc & Hr & Hs & Hi).
      * exists c. split; [right; exact Hc|auto].
      * apply elem_of_cons in Hc as [->|Hc]; [|eauto].
        apply Hcond in Hr. discriminate.
Qed.

Lemma suggestions_length cs :
  (List.length (generate_rewriting_suggestions cs) <= List.length cs)%nat.
Proof.
  induction cs as [|c0 rest IH];
    cbn [generate_rewriting_suggestions List.length]; [lia|].
  destruct (String.eqb (risk_level c0) "high" || (8 <=? importance_score c0));
    [|lia].
  destruct (issues (suggestion_for c0)); cbn [List.length]; lia.
Qed.

Lemma add_issue_shape triggered issue suggestion s c n :
  List.length (suggestions s) = List.length (issues s)
  /\ (List.length (issues s) <= n)%nat
  /\ suggestion_clause_id s = clause_id c
  /\ original_text s = clause_text c ->
  List.length (suggestions (add_issue triggered issue suggestion s))
  = List.length (issues (add_issue triggered issue suggestion s))
  /\ (List.length (issues (add_issue triggered issue suggestion s)) <= S n)%nat
  /\ suggestion_clause_id (add_issue triggered issue suggestion s) = clause_id c
  /\ original_text (add_issue triggered issue suggestion s) = clause_text c.
Proof.
  intros (H1 & H2 & H3 & H4). unfold add_issue. destruct triggered;
    cbn [issues suggestions suggestion_clause_id original_text].
  - rewrite !length_app. cbn [List.length]. repeat split; [lia|lia|auto|auto].
  - repeat split; [lia|lia|auto|auto].
Qed.

Lemma suggestion_for_shape c :
  List.length (suggestions (suggestion_for c))
  = List.length (issues (suggestion_for c))
  /\ (List.length (issues (suggestion_for c)) <= 4)%nat
  /\ suggestion_clause_id (suggestion_for c) = clause_id c
  /\ original_text (suggestion_for c) = clause_text c.
Proof.
  unfold suggestion_for. do 4 apply add_issue_shape.
  cbn. repeat split; lia.
Qed.

(** X8: every rewriting suggestion belongs to a clause that is high-risk
    or has an importance of at least 8, carries that clause's id and text,
    and lists between one and four issues with exactly one suggestion per
    issue; no clause gets more than one suggestion. *)
Theorem X8_suggestion_invariants (cs : list ClauseRecord) (s : RewriteSuggestion)
        (Hs : s ∈ generate_rewriting_suggestions cs) :
  (exists c, c ∈ cs
             /\ suggestion_clause_id s = clause_id c
             /\ original_text s = clause_text c
             /\ (risk_level c = "high" \/ 8 <= importance_score c))
  /\ (1 <= List.length (issues s) <= 4)%nat
  /\ List.length (suggestions s) = List.length (issues s)
  /\ (List.length (generate_rewriting_suggestions cs) <= List.length cs)%nat.
Proof.
  apply suggestions_elem in Hs as (c & Hc & Hr & -> & Hi).
  destruct (suggestion_for_shape c) as (Hlen & Hle & Hid & Htx).
  split; [exists c; auto|].
  split; [|split; [exact Hlen|apply suggestions_length]].
  destruct (issues (suggestion_for c)); [contradiction|cbn [List.length] in *; lia].
Qed.

Lemma X8_suggestion_invariants_witness :
  let cs := classify_clauses scenario_text in
  let s := suggestion_for
             (clause_record 1 " The Client shall pay a penalty fee for any breach"
                            ["payment"]) in
  s ∈ generate_rewriting_suggestions cs
  /\ (1 <= List.length (issues s) <= 4)%nat.
Proof.
  intros cs s.
  assert (Hs : s ∈ generate_rewriting_suggestions cs).
  { apply list_elem_of_In. vm_compute. left. reflexivity. }
  split; [exact Hs|]. apply (X8_suggestion_invariants cs s Hs).
Defined.

Lemma risk_high_of_keyword text k :
  In k risk_keywords_high -> str_in k (lower text) = true ->
  _assess_risk_level text = "high".
Proof.
  intros Hk Hs.
  assert (Hin : In k (keywords_present risk_keywords_high (lower text)))
    by (apply filter_In; auto).
  pose proof (assess_risk_cases text) as H. cbv zeta in H.
  rewrite !count_present_length in H.
  destruct (keywords_present risk_keywords_high (lower text)); [destruct Hin|].
  cbn [List.length] in H. destruct H as [[_ E]|[(? & _)|(? & _)]]; [exact E|lia|lia].
Qed.

Lemma financial_issue c :
  existsb (fun word => str_in word (lower (clause_text c)))
          ["penalty"; "forfeit"; "liquidated damages"] = true ->
  "High financial risk language" ∈ issues (suggestion_for c)
  /\ "Consider adding caps or limitations on penalties"
       ∈ suggestions (suggestion_for c).
Proof.
  intros H. unfold suggestion_for. cbv zeta. rewrite H.
  unfold add_issue at 1. cbn [issues suggestions].
  split; apply elem_of_app; right; left.
Qed.

(** X9: classification and suggestion generation compose: every record of
    the classification whose text mentions "penalty", "forfeit" or
    "liquidated damages" (in any letter case) is high-risk and receives a
    suggestion with the financial-risk issue and its advice. *)
Theorem X9_financial_risk_always_flagged (text : string) (r : ClauseRecord)
        (Hr : r ∈ classify_clauses text)
        (Hw : existsb (fun word => str_in word (lower (clause_text r)))
                      ["penalty"; "forfeit"; "liquidated damages"] = true) :
  risk_level r = "high"
  /\ exists s,
       s ∈ generate_rewriting_suggestions (classify_clauses text)
       /\ suggestion_clause_id s = clause_id r
       /\ original_text s = clause_text r
       /\ "High financial risk language" ∈ issues s
       /\ "Consider adding caps or limitations on penalties" ∈ suggestions s.
Proof.
  assert (Hhigh : risk_level r = "high").
  { apply classify_clauses_elem in Hr as (i & sentence & _ & _ & _ & ->).
    unfold clause_record in *. cbn [risk_level clause_text] in *.
    apply existsb_exists in Hw as (w & Hin & Hs).
    apply str_in_lower_strip in Hs.
    apply (risk_high_of_keyword _ w); [|exact Hs].
    cbn [In] in Hin. unfold risk_keywords_high. cbn [In].
    destruct Hin as [<-|[<-|[<-|[]]]]; auto 10. }
  split; [exact Hhigh|].
  destruct (financial_issue r Hw) as (Hi & Hg).
  destruct (suggestion_for_shape r) as (_ & _ & Hid & Htx).
  exists (suggestion_for r). repeat split; try assumption.
  apply suggestions_elem. exists r.
  split; [exact Hr|]. split; [left; exact Hhigh|]. split; [reflexivity|].
  intros E. rewrite E in Hi. inversion Hi.
Qed.

Lemma X9_financial_risk_always_flagged_witness :
  let r := clause_record 1 " The Client shall pay a penalty fee for any breach"
                         ["payment"] in
  r ∈ classify_clauses scenario_text
  /\ risk_level r = "high"
  /\ exists s,
       s ∈ generate_rewriting_suggestions (classify_clauses scenario_text)
       /\ "High financial risk language" ∈ issues s.
Proof.
  intros r.
  assert (Hr : r ∈ classify_clauses scenario_text).
  { apply list_elem_of_In. vm_compute. right. left. reflexivity. }
  assert (Hw : existsb (fun word => str_in word (lower (clause_text r)))
                       ["penalty"; "forfeit"; "liquidated damages"] = true)
    by reflexivity.
  destruct (X9_financial_risk_always_flagged scenario_text r Hr Hw)
    as (Hh & s & Hs & _ & _ & Hi & _).
  split; [exact Hr|]. split; [exact Hh|]. exists s. auto.
Defined.

(** ** Statistics: the two counters *)

Lemma counter_fold keys (m : gmap string Z) k :
  fold_left counter_incr keys m !! k
  = let n := List.length (List.filter (fun key => String.eqb key k) keys) in
    if Nat.eqb n 0 then m !! k else Some (default 0 (m !! k) + Z.of_nat n).
Proof.
  revert m. induction keys as [|key rest IH]; intros m;
    cbn [fold_left List.filter]; [reflexivity|].
  rewrite IH. cbv zeta. unfold counter_incr.
  destruct (String.eqb_spec key k) as [->|Hne].
  - rewrite lookup_insert_eq. cbn [List.length default Nat.eqb].
    destruct (Nat.eqb_spec (List.length (List.filter (fun key => String.eqb key k) rest)) 0)
      as [->|_]; f_equal; unfold id; lia.
  - rewrite lookup_insert_ne by exact Hne. reflexivity.
Qed.

Lemma fold_left_keys (A : Type) (key : A -> string) (l : list A) (m : gmap string Z) :
  fold_left (fun counts x => counter_incr counts (key x)) l m
  = fold_left counter_incr (List.map key l) m.
Proof.
  revert m. induction l as [|x l IH]; intros m; cbn; [reflexivity|apply IH].
Qed.

Lemma fold_left_nested (A : Type) (keys : A -> list string) (l : list A)
      (m : gmap string Z) :
  fold_left (fun counts x => fold_left counter_incr (keys x) counts) l m
  = fold_left counter_incr (List.concat (List.map keys l)) m.
Proof.
  revert m. induction l as [|x l IH]; intros m; cbn [fold_left List.map List.concat];
    [reflexivity|].
  now rewrite fold_left_app, IH.
Qed.

Lemma count_in_nodup (l : list string) k :
  NoDup l ->
  List.length (List.filter (fun key => String.eqb key k) l)
  = if existsb (String.eqb k) l then 1%nat else 0%nat.
Proof.
  induction 1 as [|x l Hx Hnd IH]; cbn [List.filter existsb]; [reflexivity|].
  rewrite (String.eqb_sym k x).
  destruct (String.eqb_spec x k) as [->|Hne]; cbn [orb List.length].
  - rewrite IH. destruct (existsb (String.eqb k) l) eqn:E; [|reflexivity].
    apply existsb_exists in E as (y & Hy & Ey).
    apply String.eqb_eq in Ey. subst y. apply list_elem_of_In in Hy. contradiction.
  - exact IH.
Qed.

Lemma count_in_tags cs k :
  Forall (fun c => NoDup (clause_types c)) cs ->
  List.length (List.filter (fun key => String.eqb key k)
                           (List.concat (List.map clause_types cs)))
  = count_tagged k cs.
Proof.
  unfold count_tagged.
  induction 1 as [|c cs Hc Hcs IH]; cbn [List.map List.concat List.filter];
    [reflexivity|].
  rewrite List.filter_app, length_app, IH, (count_in_nodup _ _ Hc).
  destruct (existsb (String.eqb k) (clause_types c)); reflexivity.
Qed.

Lemma count_in_levels cs k :
  List.length (List.filter (fun key => String.eqb key k) (List.map risk_level cs))
  = count_risk k cs.
Proof.
  unfold count_risk. induction cs as [|c cs IH]; cbn [List.map List.filter];
    [reflexivity|].
  destruct (String.eqb (risk_level c) k); cbn [List.length]; congruence.
Qed.

Lemma count_risk_total cs :
  Forall (fun c => risk_level c = "high" \/ risk_level c = "medium"
                   \/ risk_level c = "low") cs ->
  (count_risk "high" cs + count_risk "medium" cs + count_risk "low" cs)%nat
  = List.length cs.
Proof.
  unfold count_risk.
  induction 1 as [|c cs Hc Hcs IH]; cbn [List.filter List.length]; [reflexivity|].
  destruct Hc as [E | [E | E]]; rewrite E; cbn; lia.
Qed.

Lemma classify_clauses_wellformed text :
  Forall (fun c => NoDup (clause_types c)) (classify_clauses text)
  /\ Forall (fun c => risk_level c = "high" \/ risk_level c = "medium"
                      \/ risk_level c = "low") (classify_clauses text).
Proof.
  split; apply Forall_forall; intros c Hc;
    apply classify_clauses_elem in Hc as (i & s & _ & _ & _ & ->);
    unfold clause_record; cbn [clause_types risk_level].
  - eapply sublist_NoDup; [exact clause_pattern_names_nodup|].
    apply match_types_sublist.
  - apply risk_level_values.
Qed.

(** X10: in the statistics of an analysis, [risk_distribution] maps each
    risk level to the number of records of that level and
    [clause_type_distribution] each category to the number of records tagged
    with it; a level or category that no record has is absent from the
    dictionary, and the three risk counts add up to [total_clauses]. *)
Theorem X10_distributions_count_records (R : Regex) (F : PyFloat)
        (sentiment_analyzer : bool) (text : string) :
  match analyze_document sentiment_analyzer text with
  | Response200 body =>
      let cs := classify_clauses text in
      (forall k,
          risk_distribution (statistics body) !! k
          = if Nat.eqb (count_risk k cs) 0 then None
            else Some (Z.of_nat (count_risk k cs)))
      /\ (forall k,
             clause_type_distribution (statistics body) !! k
             = if Nat.eqb (count_tagged k cs) 0 then None
               else Some (Z.of_nat (count_tagged k cs)))
      /\ (count_risk "high" cs + count_risk "medium" cs + count_risk "low" cs)%nat
         = total_clauses (statistics body)
  | Response400 _ => text = ""
  | Response500 _ => False
  end.
Proof.
  unfold analyze_document.
  destruct (String.eqb_spec text "") as [E|E]; [exact E|].
  unfold analyze.
  destruct (analyze_tone_ok sentiment_analyzer text) as (p & -> & _).
  cbn [mbind result_bind].
  rewrite average_importance_ok.
  cbv beta iota zeta
      delta [statistics risk_distribution clause_type_distribution total_clauses].
  destruct (classify_clauses_wellformed text) as (Hnd & Hrisk).
  split; [|split].
  - intros k. rewrite fold_left_keys, counter_fold. cbv zeta.
    rewrite count_in_levels, lookup_empty. cbn [default].
    destruct (Nat.eqb (count_risk k (classify_clauses text)) 0); f_equal; lia.
  - intros k. rewrite fold_left_nested, counter_fold. cbv zeta.
    rewrite (count_in_tags _ _ Hnd), lookup_empty. cbn [default].
    destruct (Nat.eqb (count_tagged k (classify_clauses text)) 0); f_equal; lia.
  - apply count_risk_total. exact Hrisk.
Qed.

(** ** Document comparison: which types end where *)

Lemma add_types_elem (l : list string) (acc : gset string) ty :
  ty ∈ fold_left (fun types clause_type => types ∪ {[clause_type]}) l acc
  <-> ty ∈ acc \/ ty ∈ l.
Proof.
  revert acc. induction l as [|x l IH]; intros acc; cbn [fold_left].
  - split; [auto|]. intros [H|H]; [exact H|inversion H].
  - rewrite IH, elem_of_union, elem_of_singleton, elem_of_cons. tauto.
Qed.

Lemma collect_from_elem cs (acc : gset string) ty :
  ty ∈ fold_left
         (fun types clause =>
            fold_left (fun types clause_type => types ∪ {[clause_type]})
                      (clause_types clause) types)
         cs acc
  <-> ty ∈ acc \/ exists c, c ∈ cs /\ ty ∈ clause_types c.
Proof.
  revert acc. induction cs as [|c cs IH]; intros acc; cbn [fold_left].
  - split; [auto|]. intros [H|(c & H & _)]; [exact H|inversion H].
  - rewrite IH, add_types_elem. split.
    + intros [[H|H]|(c' & Hc & H)]; [auto| |].
      * right. exists c. split; [left|exact H].
      * right. exists c'. split; [right; exact Hc|exact H].
    + intros [H|(c' & Hc & H)]; [auto|].
      apply elem_of_cons in Hc as [->|Hc]; [auto|right; eauto].
Qed.

Lemma collect_types_elem cs ty :
  ty ∈ collect_types cs <-> exists c, c ∈ cs /\ ty ∈ clause_types c.
Proof.
  unfold collect_types. rewrite collect_from_elem. split; [|auto].
  intros [H|H]; [|exact H]. apply not_elem_of_empty in H. contradiction.
Qed.

(** X11: the comparison sorts every clause type found in either document
    into exactly one of the three lists: common when both documents have a
    record with that tag, unique to the first or the second when only that
    one has. No list names a type twice, and the four lists of clauses and
    differences are always left empty. *)
Theorem X11_comparison_partitions_types (A B : string) :
  let has (text ty : string) :=
    exists r, r ∈ classify_clauses text /\ ty ∈ clause_types r in
  let c := compare_documents A B in
  (forall ty, ty ∈ common_types c <-> has A ty /\ has B ty)
  /\ (forall ty, ty ∈ doc1_unique_types c <-> has A ty /\ ~ has B ty)
  /\ (forall ty, ty ∈ doc2_unique_types c <-> has B ty /\ ~ has A ty)
  /\ NoDup (common_types c)
  /\ NoDup (doc1_unique_types c)
  /\ NoDup (doc2_unique_types c)
  /\ doc1_unique_clauses c = []
  /\ doc2_unique_clauses c = []
  /\ common_clauses c = []
  /\ differences c = [].
Proof.
  intros has c. unfold c, has, compare_documents.
  cbv beta iota zeta
      delta [common_types doc1_unique_types doc2_unique_types
             doc1_unique_clauses doc2_unique_clauses common_clauses differences].
  split; [|split; [|split]].
  - intros ty. rewrite elem_of_elements, elem_of_intersection.
    now rewrite !collect_types_elem.
  - intros ty. rewrite elem_of_elements, elem_of_difference.
    now rewrite !collect_types_elem.
  - intros ty. rewrite elem_of_elements, elem_of_difference.
    now rewrite !collect_types_elem.
  - repeat split; apply NoDup_elements.
Qed.

(** X12: comparing a document with itself finds no unique type, and every
    type of the document is common. *)
Theorem X12_self_comparison (A : string) :
  doc1_unique_types (compare_documents A A) = []
  /\ doc2_unique_types (compare_documents A A) = []
  /\ forall ty,
       ty ∈ common_types (compare_documents A A)
       <-> exists r, r ∈ classify_clauses A /\ ty ∈ clause_types r.
Proof.
  unfold compare_documents.
  cbv beta iota zeta delta [common_types doc1_unique_types doc2_unique_types].
  rewrite difference_diag_L, elements_empty.
  split; [reflexivity|]. split; [reflexivity|].
  intros ty. rewrite elem_of_elements, elem_of_intersection, collect_types_elem.
  tauto.
Qed.

(** ** Timeline entries *)

Lemma fold_append_filter (p : string -> bool) (l acc : list string) :
  fold_left (fun acc k => if p k then (acc ++ [k])%list else acc) l acc
  = (acc ++ List.filter p l)%list.
Proof.
  revert acc. induction l as [|k l IH]; intros acc; cbn [fold_left List.filter].
  - now rewrite List.app_nil_r.
  - rewrite IH. destruct (p k); [|reflexivity].
    now rewrite <- List.app_assoc.
Qed.

Lemma find_deadlines_filter sentence :
  find_deadlines sentence
  = List.filter (fun keyword => str_in (lower keyword) (lower sentence))
                deadline_keywords.
Proof. unfold find_deadlines. now rewrite fold_append_filter. Qed.

Lemma has_timeline_true (R : Regex) (e : TimelineEntry) :
  has_timeline e = true <->
  dates e <> [] \/ durations e <> [] \/ deadlines e <> [].
Proof.
  unfold has_timeline.
  destruct (dates e), (durations e), (deadlines e); cbn;
    split; intros H; try reflexivity; try discriminate;
    try (right; right; discriminate); try (right; left; discriminate);
    try (left; discriminate).
  destruct H as [H|[H|H]]; contradiction.
Qed.

(** X13: every entry of the timeline describes one segment of the text: it
    carries the segment's index and trimmed text, has at least one date,
    duration or deadline cue, and its deadline cues are exactly the cue words
    that occur in the segment (in any letter case), in the order of the
    table and each at most once. *)
Theorem X13_timeline_entry_invariants (R : Regex) (text : string)
        (e : TimelineEntry) (He : e ∈ extract_timeline_info text) :
  (sentence_id e < List.length (split "." text))%nat
  /\ (exists sentence,
         split "." text !! sentence_id e = Some sentence
         /\ timeline_text e = strip sentence
         /\ deadlines e
            = List.filter (fun keyword => str_in keyword (lower sentence))
                          deadline_keywords)
  /\ (dates e <> [] \/ durations e <> [] \/ deadlines e <> [])
  /\ deadlines e `sublist_of` deadline_keywords
  /\ NoDup (deadlines e).
Proof.
  unfold extract_timeline_info in He.
  apply timeline_from_elem in He as (j & sentence & Hj & -> & Hh).
  apply has_timeline_true in Hh.
  unfold sentence_timeline in *.
  cbn [sentence_id timeline_text deadlines dates durations] in *.
  rewrite find_deadlines_filter in *.
  split; [apply lookup_lt_Some in Hj; exact Hj|].
  split; [exists sentence; repeat split; exact Hj|].
  split; [exact Hh|].
  assert (Hsub : List.filter (fun keyword => str_in (lower keyword) (lower sentence))
                             deadline_keywords `sublist_of` deadline_keywords).
  { generalize deadline_keywords. intros l.
    induction l as [|k l IH]; cbn [List.filter]; [constructor|].
    destruct (str_in (lower k) (lower sentence));
      [apply sublist_skip|apply sublist_cons]; exact IH. }
  split; [exact Hsub|].
  eapply sublist_NoDup; [|exact Hsub].
  apply (bool_decide_unpack _). vm_compute. reflexivity.
Qed.

Lemma X13_timeline_entry_invariants_witness :
  @sentence_timeline no_match 0 short_text
    ∈ @extract_timeline_info no_match short_text
  /\ @deadlines no_match (@sentence_timeline no_match 0 short_text) = ["due date"].
Proof.
  assert (He : @sentence_timeline no_match 0 short_text
                 ∈ @extract_timeline_info no_match short_text).
  { apply list_elem_of_In. left. reflexivity. }
  split; [exact He|].
  destruct (X13_timeline_entry_invariants no_match short_text _ He)
    as (_ & (s & Hs & _ & Hd) & _).
  reflexivity.
Defined.

(** ** Segmentation *)

Lemma concat_cons_piece c piece pieces :
  String.concat "." (String c piece :: pieces)
  = String c (String.concat "." (piece :: pieces)).
Proof. destruct pieces; reflexivity. Qed.

Lemma split_periods text :
  List.length (split "." text) = S (periods text)
  /\ Forall (fun piece => periods piece = 0%nat) (split "." text).
Proof.
  induction text as [|c r (IH2 & IH3)]; cbn [split periods].
  - split; [reflexivity|]. repeat constructor.
  - destruct (split_cons "." r) as (p & ps & E). rewrite E in *.
    destruct (Ascii.eqb_spec c ".") as [->|Hne]; cbn [List.length] in *.
    + split; [lia|]. constructor; [reflexivity|exact IH3].
    + split; [lia|].
      inversion IH3 as [|? ? Hp Hps]. subst. constructor; [|exact Hps].
      cbn [periods]. destruct (Ascii.eqb_spec c "."); [contradiction|exact Hp].
Qed.

(** X14: segmentation loses nothing: joining the segments with periods
    gives the text back, there is one segment more than there are periods,
    and no segment contains a period. *)
Theorem X14_split_round_trip (text : string) :
  String.concat "." (split "." text) = text
  /\ List.length (split "." text) = S (periods text)
  /\ Forall (fun piece => periods piece = 0%nat) (split "." text).
Proof.
  split; [|apply split_periods].
  induction text as [|c r IH]; cbn [split]; [reflexivity|].
  destruct (split_cons "." r) as (p & ps & E). rewrite E in *.
  destruct (Ascii.eqb_spec c ".") as [->|Hne].
  - change (String.concat "." ("" :: p :: ps))
      with ("" ++ "." ++ String.concat "." (p :: ps)).
    rewrite IH. reflexivity.
  - rewrite concat_cons_piece. congruence.
Qed.

(** ** The preview of an upload *)

Lemma length_app_string (a b : string) :
  String.length (a ++ b) = (String.length a + String.length b)%nat.
Proof.
  induction a as [|c a IH]; [reflexivity|].
  rewrite app_cons. cbn [String.length]. lia.
Qed.

Lemma substring_0_length n s :
  String.length (String.substring 0 n s) = Nat.min n (String.length s).
Proof.
  revert s. induction n as [|n IH]; intros [|c s]; cbn [String.substring String.length];
    try reflexivity.
  rewrite IH. reflexivity.
Qed.

Lemma substring_0_all n s :
  (String.length s <= n)%nat -> String.substring 0 n s = s.
Proof.
  revert s. induction n as [|n IH]; intros [|c s] H;
    cbn [String.substring String.length] in *; try reflexivity; [lia|].
  rewrite IH by lia. reflexivity.
Qed.

(** X15: the text preview of an upload never exceeds 503 characters and
    always starts with the first 500 characters of the text: a text of at
    most 500 characters is its own preview, a longer one is cut to 500
    characters and followed by three periods. *)
Theorem X15_text_preview_bounded (text : string) :
  (String.length (text_preview text) <= 503)%nat
  /\ (exists rest, text_preview text = String.substring 0 500 text ++ rest)
  /\ ((String.length text <= 500)%nat -> text_preview text = text)
  /\ ((500 < String.length text)%nat ->
      String.length (text_preview text) = 503%nat
      /\ text_preview text = String.substring 0 500 text ++ "...").
Proof.
  unfold text_preview.
  destruct (Nat.ltb_spec 500 (String.length text)) as [Hlong|Hshort].
  - assert (Hlen : String.length (String.substring 0 500 text ++ "...") = 503%nat).
    { rewrite length_app_string, substring_0_length.
      change (String.length "...") with 3%nat. lia. }
    split; [lia|]. split; [eauto|]. split; [lia|auto].
  - split; [lia|]. split; [|split; [reflexivity|lia]].
    exists "". rewrite (substring_0_all _ _ Hshort).
    clear. induction text as [|c t IH]; [reflexivity|].
    rewrite app_cons. congruence.
Qed.

(** ** Tone: the sample *)

Lemma firstn_split_app n t u :
  (n < List.length (split "." t))%nat ->
  firstn n (split "." (t ++ u)) = firstn n (split "." t).
Proof.
  revert n. induction t as [|c r IH]; intros n Hn.
  - cbn in Hn. assert (n = 0%nat) by lia. subst n. reflexivity.
  - rewrite app_cons. cbn [split] in *.
    destruct (Ascii.eqb c ".").
    + destruct n as [|n]; [reflexivity|]. cbn [List.length firstn] in *.
      rewrite IH by lia. reflexivity.
    + destruct (split_cons "." r) as (p & ps & E).
      destruct (split_cons "." (r ++ u)) as (p' & ps' & E').
      rewrite E in Hn. specialize (IH n). rewrite E, E' in IH.
      rewrite E, E'. cbn [List.length] in *.
      destruct n as [|n]; [reflexivity|]. cbn [firstn] in *.
      specialize (IH Hn). injection IH as -> ->. reflexivity.
Qed.

(** X16: tone analysis looks at the first ten segments only: once a text
    has ten periods, whatever follows it leaves the tone profile unchanged. *)
Theorem X16_tone_ignores_text_after_ten_segments (F : PyFloat)
        (sentiment_analyzer : bool) (text more : string)
        (H : (10 <= periods text)%nat) :
  analyze_tone sentiment_analyzer (text ++ more)
  = analyze_tone sentiment_analyzer text.
Proof.
  unfold analyze_tone.
  rewrite firstn_split_app; [reflexivity|].
  destruct (split_periods text) as (-> & _). lia.
Qed.

Lemma X16_tone_ignores_text_after_ten_segments_witness :
  (10 <= periods long_text)%nat
  /\ @analyze_tone binary64 true
       (long_text ++ " and shall default. Penalty. Breach. Void")
     = @analyze_tone binary64 true long_text.
Proof.
  assert (H : (10 <= periods long_text)%nat) by (vm_compute; lia).
  split; [exact H|].
  apply (X16_tone_ignores_text_after_ten_segments binary64 true _ _ H).
Defined.

(** ** Importance: the lower bound *)

(** X17: the importance score is never below 5, and never below 5 plus 2
    per important tag unless it is capped at 10; three important tags always
    give 10. *)
Theorem X17_importance_lower_bound (text : string) (tags : list string) :
  let n := Z.of_nat (List.length
                       (List.filter (fun tag => existsb (String.eqb tag) important_types)
                                    tags)) in
  5 <= _calculate_importance_score text tags <= 10
  /\ Z.min (5 + 2 * n) 10 <= _calculate_importance_score text tags
  /\ (3 <= n -> _calculate_importance_score text tags = 10).
Proof.
  intros n. rewrite importance_score_formula. unfold importance_formula. fold n.
  destruct (Nat.ltb 200 (String.length text)); lia.
Qed.

(** ** Keyword categories *)

Lemma categorize_in_first table k :
  (categorize_in table k = "general"
   /\ forall c terms, (c, terms) ∈ table ->
                      existsb (fun term => str_in term k) terms = false)
  \/ exists before c terms after,
       table = (before ++ (c, terms) :: after)%list
       /\ categorize_in table k = c
       /\ existsb (fun term => str_in term k) terms = true
       /\ forall c' terms', (c', terms') ∈ before ->
                            existsb (fun term => str_in term k) terms' = false.
Proof.
  induction table as [|[c0 t0] rest IH]; cbn [categorize_in].
  - left. split; [reflexivity|]. intros c t H. inversion H.
  - destruct (existsb (fun term => str_in term k) t0) eqn:E.
    + right. exists [], c0, t0, rest. repeat split; [exact E|].
      intros c' t' H. inversion H.
    + destruct IH as [(Hg & Hall)|(before & c & terms & after & -> & Hc & Ht & Hb)].
      * left. split; [exact Hg|]. intros c t H.
        apply elem_of_cons in H as [[= -> ->]|H]; [exact E|eauto].
      * right. exists ((c0, t0) :: before), c, terms, after.
        repeat split; [exact Hc|exact Ht|].
        intros c' t' H. apply elem_of_cons in H as [[= -> ->]|H]; [exact E|eauto].
Qed.

(** X18: a keyword gets the first category, in the order risk,
    obligations, financial, temporal, legal_process, one of whose terms
    occurs in the lower-cased keyword, and 'general' when none does. So it is
    'risk' exactly when a risk term occurs, whatever else occurs, and the
    category does not depend on letter case. *)
Theorem X18_keyword_category_first_match (keyword : string) :
  let hit terms := existsb (fun term => str_in term (lower keyword)) terms in
  ((_categorize_legal_keyword keyword = "general"
    /\ forall c terms, (c, terms) ∈ categories -> hit terms = false)
   \/ exists before c terms after,
        categories = (before ++ (c, terms) :: after)%list
        /\ _categorize_legal_keyword keyword = c
        /\ hit terms = true
        /\ forall c' terms', (c', terms') ∈ before -> hit terms' = false)
  /\ (_categorize_legal_keyword keyword = "risk"
      <-> hit ["risk"; "liability"; "damages"; "penalty"; "breach"; "default"]
          = true)
  /\ _categorize_legal_keyword (lower keyword) = _categorize_legal_keyword keyword.
Proof.
  intros hit. split; [apply categorize_in_first|]. split.
  - unfold _categorize_legal_keyword, categories. cbn [categorize_in].
    fold (hit ["risk"; "liability"; "damages"; "penalty"; "breach"; "default"]).
    destruct (hit ["risk"; "liability"; "damages"; "penalty"; "breach"; "default"]);
      [tauto|].
    repeat match goal with
           | |- context [if ?b then _ else _] => destruct b
           end; split; discriminate.
  - unfold _categorize_legal_keyword. now rewrite lower_idem.
Qed.

(** ** The texts that are reported *)

Lemma periods_app a b : periods (a ++ b) = (periods a + periods b)%nat.
Proof.
  induction a as [|c a IH]; [reflexivity|].
  rewrite app_cons. cbn [periods]. lia.
Qed.

Lemma periods_strip s : periods s = 0%nat -> periods (strip s) = 0%nat.
Proof.
  destruct (strip_context s) as (a & b & E). intros H.
  rewrite E, !periods_app in H. lia.
Qed.

Lemma rstrip_idem s : rstrip (rstrip s) = rstrip s.
Proof.
  induction s as [|c r IH]; [reflexivity|]. cbn [rstrip].
  destruct (rstrip r) as [|d r'] eqn:E.
  - destruct (is_space c) eqn:Ec; [reflexivity|]. cbn [rstrip]. now rewrite Ec.
  - cbn [rstrip] in *. rewrite IH. reflexivity.
Qed.

Lemma lstrip_head s :
  lstrip s = "" \/ exists c t, lstrip s = String c t /\ is_space c = false.
Proof.
  induction s as [|c r IH]; cbn [lstrip]; [auto|].
  destruct (is_space c) eqn:E; [exact IH|]. right. eauto.
Qed.

Lemma strip_idem s : strip (strip s) = strip s.
Proof.
  unfold strip.
  assert (H : lstrip (rstrip (lstrip s)) = rstrip (lstrip s)).
  { destruct (lstrip_head s) as [->|(c & t & -> & Hc)]; [reflexivity|].
    cbn [rstrip]. destruct (rstrip t); rewrite ?Hc; cbn [lstrip]; now rewrite Hc. }
  rewrite H. apply rstrip_idem.
Qed.

Lemma segment_text_clean text i sentence :
  split "." text !! i = Some sentence ->
  strip (strip sentence) = strip sentence /\ periods (strip sentence) = 0%nat.
Proof.
  intros Hi. split; [apply strip_idem|]. apply periods_strip.
  destruct (split_periods text) as (_ & Hall).
  rewrite List.Forall_forall in Hall. apply Hall.
  apply list_elem_of_In. eapply list_elem_of_lookup_2. exact Hi.
Qed.

(** X19: the text reported with a record, a timeline entry or a
    boilerplate match is trimmed (trimming it again changes nothing) and
    contains no period. *)
Theorem X19_reported_texts_are_trimmed (R : Regex) (text : string) :
  (forall r, r ∈ classify_clauses text ->
             strip (clause_text r) = clause_text r
             /\ periods (clause_text r) = 0%nat)
  /\ (forall e, e ∈ extract_timeline_info text ->
                strip (timeline_text e) = timeline_text e
                /\ periods (timeline_text e) = 0%nat)
  /\ (forall m, m ∈ detect_boilerplate text ->
                strip (boilerplate_text m) = boilerplate_text m
                /\ periods (boilerplate_text m) = 0%nat).
Proof.
  split; [|split].
  - intros r Hr. apply classify_clauses_elem in Hr as (i & s & Hi & _ & _ & ->).
    exact (segment_text_clean text i s Hi).
  - intros e He. apply timeline_from_elem in He as (i & s & Hi & -> & _).
    exact (segment_text_clean text i s Hi).
  - intros m Hm. apply boilerplate_from_elem in Hm as (i & s & p & Hi & _ & ->).
    exact (segment_text_clean text i s Hi).
Qed.
